(** * PhotoEditor: the date-stamp compositing pipeline of [src/app/page.tsx]

    A shallow embedding of the [PhotoEditor] component: its React state, the
    [formatDate] helper, the [createFinalImage] callback with the canvas
    calls it issues, and the download link of the result section.

    Conventions of the embedding.
    - JavaScript numbers that hold pixel counts delivered by the cropper
      (the fields of [CroppedAreaPixels]) are integers [Z], and so is the
      canvas size, which the canvas element keeps as an unsigned long;
      every number computed from them ([canvas.width / 2],
      [canvas.width * 0.05], ...) is an exact rational [Q].  Rounding of
      binary64 arithmetic is therefore not part of the model; the two font
      sizes the specification quotes are cross-checked on binary64 at the
      end of the file.
    - The 2D context is a record of its drawing state together with the list
      of everything painted so far; each painted item remembers the drawing
      state (transform, compositing rule, fill style, font) it was painted
      under.  Canvas calls are actions of a small state monad over it.
    - What the browser decides (does the image decode, is a 2D context
      handed out, how wide is a string in a font) is a [Browser] record
      passed to [createFinalImage].
    - The handlers of the controls are functions on the state; a session is
      a list of events, in which a run of [createFinalImage] is split at its
      [await] so that other handlers can come in between.  The canvas calls
      of the first of the two [PhotoEditor] definitions in the file are
      embedded beside those of the second. *)

From Stdlib Require Import ZArith QArith Qminmax Qround Lqa Lia.
From Stdlib Require Import String Ascii List Bool DecimalString DecimalZ.
From Stdlib Require Import PrimFloat.
Import ListNotations.

Local Open Scope string_scope.

(** ** JavaScript built-ins used by the component *)

Module JS.

(** [String(n)] for an integer-valued number. *)
Definition String_ (n : Z) : string :=
  NilZero.string_of_int (Z.to_int n).

(** [k] characters read cyclically from [filler]. *)
Fixpoint cycle (filler rest : string) (k : nat) : string :=
  match k with
  | O => EmptyString
  | S k' =>
      match rest with
      | String c rest' => String c (cycle filler rest' k')
      | EmptyString =>
          match filler with
          | String c rest' => String c (cycle filler rest' k')
          | EmptyString => EmptyString
          end
      end
  end.

(** [s.padStart(targetLength, padString)]. *)
Definition padStart (s : string) (targetLength : nat) (padString : string)
  : string :=
  if (targetLength <=? String.length s)%nat then s
  else cycle padString padString (targetLength - String.length s) ++ s.

(** [s.replace(/c/g, d)] for a single character [c]. *)
Fixpoint replaceAll (c d : ascii) (s : string) : string :=
  match s with
  | EmptyString => EmptyString
  | String a s' =>
      String (if Ascii.eqb a c then d else a) (replaceAll c d s')
  end.

(** [Math.min] and [Math.PI].  [Math_PI] is the binary64 constant, which is
    the rational 884279719003555 / 2^48. *)
Definition Math_min (a b : Q) : Q := Qmin a b.
Definition Math_PI : Q := 884279719003555 # 281474976710656.

(** Truthiness of a [string | null] value: [null] and [""] are falsy. *)
Definition truthy_string (s : option string) : bool :=
  match s with
  | Some (String _ _) => true
  | _ => false
  end.

(** The part of a [Date] the component reads. [getMonth] counts from 0. *)
Record Date : Type := mkDate {
  getFullYear : Z;
  getMonth : Z;
  getDate : Z
}.

(** The ranges a [Date] object keeps its month and day of month in. *)
Definition Date_wf (d : Date) : Prop :=
  (0 <= getMonth d <= 11)%Z /\ (1 <= getDate d <= 31)%Z.

End JS.

Import JS.

(** ** [formatDate] and the download name *)

Definition formatDate (date : Date) : string :=
  let year := getFullYear date in
  let month := padStart (String_ (getMonth date + 1)) 2 "0" in
  let day := padStart (String_ (getDate date)) 2 "0" in
  String_ year ++ "/" ++ month ++ "/" ++ day.

(** ** The 2D canvas context *)

Module Canvas.

Local Open Scope Q_scope.
Local Open Scope list_scope.

(** The current transformation matrix is kept as the calls that built it,
    in call order; [[]] is the identity. *)
Inductive Step : Type :=
| Translate (tx ty : Q)
| Rotate (angle : Q).

Definition Transform : Type := list Step.

Inductive CompositeOp : Type := source_over | destination_in.

Record Color : Type := rgba {
  red : Z; green : Z; blue : Z; alpha : Q
}.

Definition black : Color := rgba 0 0 0 1.
Definition white : Color := rgba 255 255 255 1.

(** [`bold ${size}px Arial`] and the like, kept structured. *)
Record Font : Type := mkFont {
  bold : bool; size_px : Q; family : string
}.

(** [arc(x, y, radius, startAngle, endAngle)]. *)
Inductive Segment : Type :=
| Arc (x y radius startAngle endAngle : Q).

(** What [save()] pushes and [restore()] pops. *)
Record DrawingState : Type := mkDrawingState {
  transform : Transform;
  globalCompositeOperation : CompositeOp;
  fillStyle : Color;
  font : Font
}.

(** A path point is fixed by the transform in force when it was added. *)
Definition Path : Type := list (Transform * Segment).

Inductive Shape : Type :=
| Image (src : string) (sx sy sw sh dx dy dw dh : Q)
| Filled (p : Path)
| Rect (x y w h : Q)
| Text (text : string) (x y : Q).

Record Painted : Type := mkPainted {
  shape : Shape;
  under : DrawingState
}.

Record Context : Type := mkContext {
  canvas_width : Z;
  canvas_height : Z;
  current : DrawingState;
  saved : list DrawingState;
  path : Path;
  painted : list Painted
}.

(** The [width] and [height] attributes of a canvas element are unsigned
    longs.  An integer assigned to one is taken modulo 2^32; a result above
    2147483647 is replaced by the default of the attribute, 300 for the
    width and 150 for the height. *)
Definition unsigned_long (default v : Z) : Z :=
  let u := (v mod 4294967296)%Z in
  if (u <=? 2147483647)%Z then u else default.

(** A context as [getContext('2d')] hands it out, on a canvas whose
    [width] and [height] have just been assigned [w] and [h]. *)
Definition initial : DrawingState :=
  mkDrawingState [] source_over black (mkFont false 10 "sans-serif").

Definition fresh (w h : Z) : Context :=
  mkContext (unsigned_long 300 w) (unsigned_long 150 h) initial [] [] [].

(** *** Canvas calls as state actions *)

Definition M (A : Type) : Type := Context -> A * Context.

Definition ret {A} (a : A) : M A := fun c => (a, c).

Definition bind {A B} (m : M A) (k : A -> M B) : M B :=
  fun c => let (a, c') := m c in k a c'.

Definition exec {A} (m : M A) (c : Context) : Context := snd (m c).

Declare Scope canvas_scope.
Delimit Scope canvas_scope with canvas.
Notation "x <- m ;; k" := (bind m (fun x => k))
  (at level 61, m at next level, right associativity) : canvas_scope.
Notation "m ;; k" := (bind m (fun _ => k))
  (at level 61, right associativity) : canvas_scope.

Definition with_current (f : DrawingState -> DrawingState) : M unit :=
  fun c => (tt, mkContext (canvas_width c) (canvas_height c)
                  (f (current c)) (saved c) (path c) (painted c)).

Definition emit (s : Shape) : M unit :=
  fun c => (tt, mkContext (canvas_width c) (canvas_height c)
                  (current c) (saved c) (path c)
                  (painted c ++ [mkPainted s (current c)])).

Definition width : M Q := fun c => (inject_Z (canvas_width c), c).
Definition height : M Q := fun c => (inject_Z (canvas_height c), c).

Definition save : M unit :=
  fun c => (tt, mkContext (canvas_width c) (canvas_height c)
                  (current c) (current c :: saved c) (path c) (painted c)).

Definition restore : M unit :=
  fun c =>
    match saved c with
    | [] => (tt, c)
    | s :: rest =>
        (tt, mkContext (canvas_width c) (canvas_height c)
               s rest (path c) (painted c))
    end.

Definition push_step (t : Step) : M unit :=
  with_current (fun s =>
    mkDrawingState (transform s ++ [t]) (globalCompositeOperation s)
      (fillStyle s) (font s)).

Definition translate (tx ty : Q) : M unit := push_step (Translate tx ty).
Definition rotate (angle : Q) : M unit := push_step (Rotate angle).

Definition set_globalCompositeOperation (op : CompositeOp) : M unit :=
  with_current (fun s =>
    mkDrawingState (transform s) op (fillStyle s) (font s)).

Definition set_fillStyle (col : Color) : M unit :=
  with_current (fun s =>
    mkDrawingState (transform s) (globalCompositeOperation s) col (font s)).

Definition set_font (f : Font) : M unit :=
  with_current (fun s =>
    mkDrawingState (transform s) (globalCompositeOperation s)
      (fillStyle s) f).

Definition drawImage (src : string) (sx sy sw sh dx dy dw dh : Q) : M unit :=
  emit (Image src sx sy sw sh dx dy dw dh).

Definition beginPath : M unit :=
  fun c => (tt, mkContext (canvas_width c) (canvas_height c)
                  (current c) (saved c) [] (painted c)).

Definition arc (x y radius startAngle endAngle : Q) : M unit :=
  fun c => (tt, mkContext (canvas_width c) (canvas_height c)
                  (current c) (saved c)
                  (path c ++ [(transform (current c),
                               Arc x y radius startAngle endAngle)])
                  (painted c)).

Definition fill : M unit :=
  fun c => emit (Filled (path c)) c.

Definition fillRect (x y w h : Q) : M unit := emit (Rect x y w h).

Definition fillText (text : string) (x y : Q) : M unit :=
  emit (Text text x y).

(** [measureText(text).width] in the current font; the metric itself is
    the browser's. *)
Definition measureText (metric : Font -> string -> Q) (text : string)
  : M Q :=
  fun c => (metric (font (current c)) text, c).

(** *** Where a transform sends a point

    [trig angle] is the pair (cos, sin) of an angle; a step list applies
    to a point from its last step to its first, as the matrix product
    does. *)

Definition Point : Type := (Q * Q)%type.

Definition apply_step (trig : Q -> Q * Q) (t : Step) (p : Point) : Point :=
  match t with
  | Translate tx ty => (fst p + tx, snd p + ty)
  | Rotate angle =>
      let (c, s) := trig angle in
      (c * fst p - s * snd p, s * fst p + c * snd p)
  end.

Definition apply (trig : Q -> Q * Q) (t : Transform) (p : Point) : Point :=
  fold_right (apply_step trig) p t.

(** *** The alpha channel of what has been painted

    Coverage is computed for the axis-aligned shapes the model can place
    exactly: a rectangle and a full-circle path under the identity
    transform.  The coverage of everything else (a decoded image, glyphs,
    shapes under a rotation) is the parameter [sample]. *)

Definition in_rect (x y w h : Q) (p : Point) : bool :=
  Qle_bool (Qmin x (x + w)) (fst p) && Qle_bool (fst p) (Qmax x (x + w)) &&
  Qle_bool (Qmin y (y + h)) (snd p) && Qle_bool (snd p) (Qmax y (y + h)).

Definition in_disc (cx cy r : Q) (p : Point) : bool :=
  Qle_bool ((fst p - cx) * (fst p - cx) + (snd p - cy) * (snd p - cy))
           (r * r).

Definition full_circle (startAngle endAngle : Q) : bool :=
  Qle_bool (Math_PI * 2) (endAngle - startAngle).

Section Alpha.

Variable sample : Painted -> Point -> Q.

Definition coverage (it : Painted) (p : Point) : Q :=
  match shape it with
  | Rect x y w h =>
      match transform (under it) with
      | [] => if in_rect x y w h p then alpha (fillStyle (under it))
              else 0
      | _ => sample it p
      end
  | Filled [([], Arc cx cy r a0 a1)] =>
      if full_circle a0 a1 then
        if in_disc cx cy r p then alpha (fillStyle (under it)) else 0
      else sample it p
  | _ => sample it p
  end.

(** Porter-Duff on the alpha channel. *)
Definition blend (op : CompositeOp) (src dst : Q) : Q :=
  match op with
  | source_over => src + dst * (1 - src)
  | destination_in => dst * src
  end.

Definition paint (below : Point -> Q) (it : Painted) : Point -> Q :=
  fun p =>
    blend (globalCompositeOperation (under it)) (coverage it p) (below p).

(** A fresh canvas is transparent everywhere. *)
Definition render (items : list Painted) : Point -> Q :=
  fold_left paint items (fun _ => 0).

End Alpha.

(** *** Encoding *)

Record Bitmap : Type := mkBitmap {
  bitmap_width : Z;
  bitmap_height : Z;
  bitmap_items : list Painted
}.

(** A data URL: ["data:,"] for a canvas without pixels, that is of width
    or height zero, else the bitmap in the requested encoding. *)
Inductive DataURL : Type :=
| data_none
| data_image (type : string) (b : Bitmap).

Definition toDataURL (c : Context) (type : string) : DataURL :=
  if ((canvas_width c =? 0) || (canvas_height c =? 0))%Z then data_none
  else data_image type
         (mkBitmap (canvas_width c) (canvas_height c) (painted c)).

End Canvas.

(** ** The [PhotoEditor] component *)

Module PhotoEditor.

Import Canvas.
Local Open Scope Q_scope.
Local Open Scope canvas_scope.

Record CroppedAreaPixels : Type := mkArea {
  x : Z;
  y : Z;
  width : Z;
  height : Z
}.

Inductive CropShape : Type := rect | round.

(** The [useState] cells of the component. *)
Record State : Type := mkState {
  imageSrc : option string;
  crop : Q * Q;
  zoom : Q;
  rotation : Q;
  cropShape : CropShape;
  aspectRatio : option Q;
  croppedAreaPixels : option CroppedAreaPixels;
  selectedDate : option Date;
  finalImage : option DataURL;
  showTouchControls : bool
}.

(** What the browser decides during one run of the callback. *)
Record Browser : Type := mkBrowser {
  decodes : string -> bool;          (* does [image.onload] ever fire *)
  context2d : bool;                  (* is [getContext('2d')] non-null *)
  textWidth : Font -> string -> Q    (* [measureText(...).width] *)
}.

Definition setFinalImage (v : option DataURL) (st : State) : State :=
  mkState (imageSrc st) (crop st) (zoom st) (rotation st) (cropShape st)
    (aspectRatio st) (croppedAreaPixels st) (selectedDate st) v
    (showTouchControls st).

Definition setSelectedDate (v : option Date) (st : State) : State :=
  mkState (imageSrc st) (crop st) (zoom st) (rotation st) (cropShape st)
    (aspectRatio st) (croppedAreaPixels st) v (finalImage st)
    (showTouchControls st).

Definition setImageSrc (v : option string) (st : State) : State :=
  mkState v (crop st) (zoom st) (rotation st) (cropShape st)
    (aspectRatio st) (croppedAreaPixels st) (selectedDate st)
    (finalImage st) (showTouchControls st).

(** The [load] listener of [onFileChange]. *)
Definition onFileLoaded (result : string) (st : State) : State :=
  setFinalImage None (setImageSrc (Some result) st).

(** The label metrics of [createFinalImage]. *)
Definition fontSize (canvas_w : Q) : Q := Math_min (canvas_w * 0.05) 32.
Definition padding (canvas_w : Q) : Q := fontSize canvas_w * 0.75.

(** The circular mask of [createFinalImage]. *)
Definition mask (w h : Q) : M unit :=
  set_globalCompositeOperation destination_in ;;
  beginPath ;;
  arc (w / 2) (h / 2) (Math_min w h / 2) 0 (Math_PI * 2) ;;
  fill ;;
  set_globalCompositeOperation source_over.

(** The canvas calls of [createFinalImage], from [ctx.save()] to the last
    [fillText]. *)
Definition drawing (b : Browser) (src : string) (area : CroppedAreaPixels)
    (rotation : Q) (cropShape : CropShape) (selectedDate : Date) : M unit :=
  w <- Canvas.width ;;
  h <- Canvas.height ;;
  (* Apply rotation and cropping *)
  save ;;
  translate (w / 2) (h / 2) ;;
  rotate ((rotation * Math_PI) / 180) ;;
  translate (- w / 2) (- h / 2) ;;
  drawImage src
    (inject_Z (x area)) (inject_Z (y area))
    (inject_Z (width area)) (inject_Z (height area))
    0 0
    (inject_Z (width area)) (inject_Z (height area)) ;;
  restore ;;
  (* Apply circular mask if needed *)
  match cropShape with
  | round => mask w h
  | rect => ret tt
  end ;;
  (* Add date overlay *)
  let fontSize := fontSize w in
  let padding := padding w in
  let dateText := formatDate selectedDate in
  set_font (mkFont true fontSize "Arial") ;;
  textWidth <- measureText (textWidth b) dateText ;;
  (* Background rectangle with padding *)
  set_fillStyle (rgba 0 0 0 0.7) ;;
  fillRect padding (h - (fontSize + padding * 2))
           (textWidth + padding * 2) (fontSize + padding * 2) ;;
  (* Date text *)
  set_fillStyle white ;;
  fillText dateText (padding * 2) (h - padding).

(** The canvas at the moment [toDataURL] is called. *)
Definition canvas_of (b : Browser) (src : string) (area : CroppedAreaPixels)
    (rotation : Q) (cropShape : CropShape) (selectedDate : Date) : Context :=
  exec (drawing b src area rotation cropShape selectedDate)
       (fresh (width area) (height area)).

(** How one run of the callback ends. *)
Inductive Outcome : Type :=
| Returned                  (* an early [return]: nothing is set *)
| Pending                   (* the awaited promise never settles *)
| Generated (url : DataURL) (* [setFinalImage(canvas.toDataURL(...))] *).

Definition createFinalImage_outcome (b : Browser) (st : State) : Outcome :=
  match imageSrc st, croppedAreaPixels st, selectedDate st with
  | Some src, Some area, Some date =>
      if negb (truthy_string (Some src)) then Returned
      else if negb (decodes b src) then Pending
      else if negb (context2d b) then Returned
      else Generated
             (toDataURL
                (canvas_of b src area (rotation st) (cropShape st) date)
                "image/png")
  | _, _, _ => Returned
  end.

(** The component state once the callback has run. *)
Definition createFinalImage (b : Browser) (st : State) : State :=
  match createFinalImage_outcome b st with
  | Generated url => setFinalImage (Some url) st
  | Returned | Pending => st
  end.

(** The [download] attribute of the result link. *)
Definition download (selectedDate : option Date) : string :=
  "photo_" ++
  match selectedDate with
  | Some d => replaceAll "/" "-" (formatDate d)
  | None => "edited"
  end ++ ".png".

(** The link of the result section, rendered when both [imageSrc] and
    [finalImage] are set. *)
Record Anchor : Type := mkAnchor {
  href : DataURL;
  download_attr : string
}.

Definition result_link (st : State) : option Anchor :=
  if truthy_string (imageSrc st) then
    match finalImage st with
    | Some url => Some (mkAnchor url (download (selectedDate st)))
    | None => None
    end
  else None.

End PhotoEditor.

Import Canvas PhotoEditor.

(** ** The label metrics on binary64

The two lines that compute the label metrics, on IEEE 754 doubles as
JavaScript evaluates them.  The literal 0.05 is not a double; the nearest
one, which the JavaScript parser picks as well, is written out. *)

Module Binary64.

Import PrimFloat.
Local Open Scope float_scope.

(** [Math.min]: NaN if either argument is, and -0 counts as below +0. *)
Definition Math_min (a b : float) : float :=
  if is_nan a || is_nan b then nan
  else if a <? b then a
  else if b <? a then b
  else if get_sign a then a else b.

Definition fontSize (canvas_w : float) : float :=
  Math_min (canvas_w * 0x1.999999999999ap-5) 32.

Definition padding (canvas_w : float) : float := fontSize canvas_w * 0.75.

End Binary64.

(** ** Reading the label back

    A month or day as two decimal digits, written from the digits rather than
    by padding; [formatDate] is compared with it below. *)

Definition digit (n : Z) : ascii :=
  ascii_of_nat (48 + Z.to_nat n).

Definition two_digits (n : Z) : string :=
  String (digit (n / 10)) (String (digit (n mod 10)) EmptyString).

(** The shape the specification gives the date text: four digits, a slash,
    two digits, a slash, two digits. *)
Definition is_digit (a : ascii) : bool :=
  (48 <=? nat_of_ascii a)%nat && (nat_of_ascii a <=? 57)%nat.

Definition four_digits (s : string) : bool :=
  match s with
  | String y1 (String y2 (String y3 (String y4 EmptyString))) =>
      is_digit y1 && is_digit y2 && is_digit y3 && is_digit y4
  | _ => false
  end.

Definition YYYY_MM_DD (s : string) : bool :=
  match s with
  | String y1 (String y2 (String y3 (String y4 (String s1
      (String m1 (String m2 (String s2
        (String d1 (String d2 EmptyString))))))))) =>
      four_digits (String y1 (String y2 (String y3 (String y4 EmptyString))))
      && Ascii.eqb s1 "/" && is_digit m1 && is_digit m2
      && Ascii.eqb s2 "/" && is_digit d1 && is_digit d2
  | _ => false
  end.

(** ** Concrete runs *)

Module Examples.

Local Open Scope Q_scope.

(** A browser in which every image decodes and a glyph is 0.6 em wide. *)
Definition browser : Browser :=
  mkBrowser (fun _ => true) true
    (fun f s => size_px f * 0.6 * inject_Z (Z.of_nat (String.length s))).

Definition photo : string := "data:image/png;base64,iVBORw0KGgo=".

Definition march_7 : Date := mkDate 2024 2 7.

(** A result left by an earlier run: a 40 by 30 PNG. *)
Definition earlier : DataURL :=
  data_image "image/png" (mkBitmap 40 30 []).

Definition editing (area : CroppedAreaPixels) (shape : CropShape)
    (previous : option DataURL) : State :=
  mkState (Some photo) (0, 0) 1 90 shape None (Some area) (Some march_7)
    previous true.


Definition square_crop : CroppedAreaPixels := mkArea 10 20 100 100.

End Examples.

(** ** The controls around the cropper

    The remaining state setters and the handlers of the buttons, sliders and
    pickers of the component. *)

Module Controls.

Local Open Scope Q_scope.

Definition setCrop (v : Q * Q) (st : State) : State :=
  mkState (imageSrc st) v (zoom st) (rotation st) (cropShape st)
    (aspectRatio st) (croppedAreaPixels st) (selectedDate st)
    (finalImage st) (showTouchControls st).

Definition setZoom (v : Q) (st : State) : State :=
  mkState (imageSrc st) (crop st) v (rotation st) (cropShape st)
    (aspectRatio st) (croppedAreaPixels st) (selectedDate st)
    (finalImage st) (showTouchControls st).

Definition setRotation (v : Q) (st : State) : State :=
  mkState (imageSrc st) (crop st) (zoom st) v (cropShape st)
    (aspectRatio st) (croppedAreaPixels st) (selectedDate st)
    (finalImage st) (showTouchControls st).

Definition setCropShape (v : CropShape) (st : State) : State :=
  mkState (imageSrc st) (crop st) (zoom st) (rotation st) v
    (aspectRatio st) (croppedAreaPixels st) (selectedDate st)
    (finalImage st) (showTouchControls st).

Definition setAspectRatio (v : option Q) (st : State) : State :=
  mkState (imageSrc st) (crop st) (zoom st) (rotation st) (cropShape st)
    v (croppedAreaPixels st) (selectedDate st)
    (finalImage st) (showTouchControls st).

Definition setCroppedAreaPixels (v : option CroppedAreaPixels) (st : State)
  : State :=
  mkState (imageSrc st) (crop st) (zoom st) (rotation st) (cropShape st)
    (aspectRatio st) v (selectedDate st)
    (finalImage st) (showTouchControls st).

Definition setShowTouchControls (v : bool) (st : State) : State :=
  mkState (imageSrc st) (crop st) (zoom st) (rotation st) (cropShape st)
    (aspectRatio st) (croppedAreaPixels st) (selectedDate st)
    (finalImage st) v.

(** [onCropComplete]: the cropper reports the crop in source pixels. *)
Definition onCropComplete (croppedAreaPixels : CroppedAreaPixels)
    (st : State) : State :=
  setCroppedAreaPixels (Some croppedAreaPixels) st.

(** The number [a % n]: [a] minus [n] times the quotient rounded towards
    zero, so that the result has the sign of [a]. *)
Definition trunc (q : Q) : Z := (Qnum q ÷ Zpos (Qden q))%Z.

Definition rem (a n : Q) : Q := a - n * inject_Z (trunc (a / n)).

(** The quick actions: [setRotation(prev => (prev + 90) % 360)],
    [setZoom(prev => Math.min(prev + 0.1, 3))] and [setZoom(1)]. *)
Definition onRotateClick (st : State) : State :=
  setRotation (rem (rotation st + 90) 360) st.

Definition onZoomClick (st : State) : State :=
  setZoom (Math_min (zoom st + 0.1) 3) st.

Definition onResetClick (st : State) : State := setZoom 1 st.

(** The state of a freshly mounted component; [today] is [new Date()]. *)
Definition mounted (today : Date) : State :=
  mkState None (0, 0) 1 0 rect None None (Some today) None true.

End Controls.

Import Controls.

(** ** One session of the component

    [createFinalImage] is asynchronous: a click runs it up to the [await],
    with the inputs of the render it was created in, and the rest runs when
    the image it waits for has loaded.  Other handlers may run in between. *)

Module Session.

(** The inputs a pending run has closed over. *)
Record Run : Type := mkRun {
  run_src : string;
  run_area : CroppedAreaPixels;
  run_rotation : Q;
  run_shape : CropShape;
  run_date : Date
}.

(** Up to the [await]: the guard, and the inputs captured. *)
Definition start (st : State) : option Run :=
  match imageSrc st, croppedAreaPixels st, selectedDate st with
  | Some src, Some area, Some date =>
      if negb (truthy_string (Some src)) then None
      else Some (mkRun src area (rotation st) (cropShape st) date)
  | _, _, _ => None
  end.

(** Can the awaited [onload] of a run fire at all. *)
Definition loads (b : Browser) (r : Run) : bool := decodes b (run_src r).

(** After the [await]: the canvas is drawn from the captured inputs and
    stored in the state as it is by then. *)
Definition finish (b : Browser) (r : Run) (st : State) : State :=
  if negb (context2d b) then st
  else setFinalImage
         (Some (toDataURL
                  (canvas_of b (run_src r) (run_area r) (run_rotation r)
                     (run_shape r) (run_date r))
                  "image/png"))
         st.

Inductive Event : Type :=
| FileLoaded (result : string)      (* the reader's [load] listener *)
| CropChange (v : Q * Q)            (* [onCropChange] *)
| ZoomChange (v : Q)                (* [onZoomChange] *)
| RotationChange (v : Q)            (* [onRotationChange] *)
| CropComplete (area : CroppedAreaPixels)
| ShapeClick (v : CropShape)
| AspectChange (v : option Q)       (* the select, [Number(value)] done *)
| DateChange (v : option Date)
| RotateClick
| ZoomClick
| ResetClick
| TipsClick (v : bool)
| GenerateClick
| ImageLoaded (i : nat)             (* the [onload] of pending run [i] *).

Record App : Type := mkApp {
  ui : State;
  pending : list Run
}.

Fixpoint remove_nth {A} (i : nat) (l : list A) : list A :=
  match l, i with
  | nil, _ => nil
  | _ :: l', O => l'
  | a :: l', S i' => a :: remove_nth i' l'
  end.

Definition step (b : Browser) (a : App) (e : Event) : App :=
  match e with
  | FileLoaded result => mkApp (onFileLoaded result (ui a)) (pending a)
  | CropChange v => mkApp (setCrop v (ui a)) (pending a)
  | ZoomChange v => mkApp (setZoom v (ui a)) (pending a)
  | RotationChange v => mkApp (setRotation v (ui a)) (pending a)
  | CropComplete area => mkApp (onCropComplete area (ui a)) (pending a)
  | ShapeClick v => mkApp (setCropShape v (ui a)) (pending a)
  | AspectChange v => mkApp (setAspectRatio v (ui a)) (pending a)
  | DateChange v => mkApp (setSelectedDate v (ui a)) (pending a)
  | RotateClick => mkApp (onRotateClick (ui a)) (pending a)
  | ZoomClick => mkApp (onZoomClick (ui a)) (pending a)
  | ResetClick => mkApp (onResetClick (ui a)) (pending a)
  | TipsClick v => mkApp (setShowTouchControls v (ui a)) (pending a)
  | GenerateClick =>
      match start (ui a) with
      | Some r => mkApp (ui a) (pending a ++ [r])
      | None => a
      end
  | ImageLoaded i =>
      match nth_error (pending a) i with
      | Some r =>
          if loads b r
          then mkApp (finish b r (ui a)) (remove_nth i (pending a))
          else a
      | None => a
      end
  end.

Definition run (b : Browser) (a : App) (es : list Event) : App :=
  fold_left (step b) es a.

(** The image a data URL was drawn from, when it shows one. *)
Definition drawn_from (url : DataURL) : option string :=
  match url with
  | data_image _ bm =>
      match bitmap_items bm with
      | it :: _ =>
          match shape it with
          | Image src _ _ _ _ _ _ _ _ => Some src
          | _ => None
          end
      | nil => None
      end
  | data_none => None
  end.

End Session.

(** ** The first version of the component

    The file holds two definitions of [PhotoEditor]; this is the canvas part
    of [createFinalImage] in the first one, whose label has a fixed size. *)

Module FirstVersion.

Import Canvas PhotoEditor.
Local Open Scope Q_scope.
Local Open Scope canvas_scope.

Definition drawing (src : string) (area : CroppedAreaPixels)
    (rotation : Q) (cropShape : CropShape) (selectedDate : Date) : M unit :=
  w <- Canvas.width ;;
  h <- Canvas.height ;;
  (* Apply rotation and cropping *)
  save ;;
  translate (w / 2) (h / 2) ;;
  rotate ((rotation * Math_PI) / 180) ;;
  translate (- w / 2) (- h / 2) ;;
  drawImage src
    (inject_Z (x area)) (inject_Z (y area))
    (inject_Z (width area)) (inject_Z (height area))
    0 0
    (inject_Z (width area)) (inject_Z (height area)) ;;
  restore ;;
  (* Apply circular mask if needed *)
  match cropShape with
  | round =>
      set_globalCompositeOperation destination_in ;;
      beginPath ;;
      arc (w / 2) (h / 2) (Math_min w h / 2) 0 (Math_PI * 2) ;;
      fill ;;
      set_globalCompositeOperation source_over
  | rect => ret tt
  end ;;
  (* Add date overlay with updated format *)
  set_fillStyle (rgba 0 0 0 0.6) ;;
  fillRect 10 (h - 40) 150 30 ;;
  set_fillStyle white ;;
  set_font (mkFont true 16 "Arial") ;;
  fillText (formatDate selectedDate) 20 (h - 20).

Definition canvas_of (src : string) (area : CroppedAreaPixels)
    (rotation : Q) (cropShape : CropShape) (selectedDate : Date) : Context :=
  exec (drawing src area rotation cropShape selectedDate)
       (fresh (width area) (height area)).

End FirstVersion.

(** ** Where the label lies *)

Module Label.

Local Open Scope Q_scope.

(** Is the point inside a rectangle painted by [fillRect]. *)
Definition in_box (items : list Painted) (p : Point) : bool :=
  existsb (fun it =>
             match shape it with
             | Rect rx ry rw rh => in_rect rx ry rw rh p
             | _ => false
             end) items.

(** No text item leaves any coverage at the point. *)
Definition no_glyph (sample : Painted -> Point -> Q)
    (items : list Painted) (p : Point) : Prop :=
  Forall (fun it =>
            match shape it with
            | Text _ _ _ => sample it p == 0
            | _ => True
            end) items.

End Label.

Import Session Label.

(** An event that neither starts nor completes a run of
    [createFinalImage]. *)
Definition quiet (e : Event) : bool :=
  match e with
  | GenerateClick | ImageLoaded _ => false
  | _ => true
  end.

(** What a session keeps true of the uploads made in it: a result or a
    pending run needs a loaded image, and every image in use was uploaded by
    one of the events [es] so far. *)
Record Provenance (es : list Event) (a : App) : Prop := mkProvenance {
  shown_needs_image :
    finalImage (ui a) <> None \/ pending a <> [] -> imageSrc (ui a) <> None;
  image_was_uploaded :
    forall s, imageSrc (ui a) = Some s -> In (FileLoaded s) es;
  pending_was_uploaded :
    forall r, In r (pending a) -> In (FileLoaded (run_src r)) es;
  result_was_uploaded :
    forall u s, finalImage (ui a) = Some u -> drawn_from u = Some s ->
                In (FileLoaded s) es
}.

(** A second photo and a second date for the examples. *)
Module Examples2.

Definition other_photo : string := "data:image/jpeg;base64,/9j/4AAQ".

Definition new_year : Date := mkDate 2025 0 1.

(** Coverage of an opaque photo whose label leaves no ink: enough to run
    [render] on the examples. *)
Definition opaque_photo (it : Painted) (p : Point) : Q :=
  match shape it with
  | Text _ _ _ => 0
  | _ => 1
  end.

End Examples2.

(** ** Reading strings

    Does a character occur in a string; and the number two decimal digits
    stand for, used to tell formatted dates apart. *)

Fixpoint occurs (c : ascii) (s : string) : bool :=
  match s with
  | EmptyString => false
  | String a s' => Ascii.eqb a c || occurs c s'
  end.

Definition digit_value (a : ascii) : Z := Z.of_nat (nat_of_ascii a - 48).

Definition two_digits_value (s : string) : Z :=
  match s with
  | String a (String b EmptyString) => 10 * digit_value a + digit_value b
  | _ => 0
  end.

(** * Properties *)

(** ** Strings *)

Section StringFacts.

Lemma append_assoc (s t u : string) : (s ++ t) ++ u = s ++ (t ++ u).
Proof.
  induction s as [|a s IH]; simpl; [reflexivity|].
  now rewrite IH.
Qed.

Lemma padStart_two_digits_nat (k : nat) :
  (k < 100)%nat ->
  padStart (String_ (Z.of_nat k)) 2 "0" = two_digits (Z.of_nat k).
Proof.
  intros Hk.
  do 100 (destruct k as [|k]; [reflexivity|]).
  lia.
Qed.

Lemma padStart_two_digits (n : Z) :
  (0 <= n <= 99)%Z -> padStart (String_ n) 2 "0" = two_digits n.
Proof.
  intros Hn.
  rewrite <- (Z2Nat.id n) by lia.
  apply padStart_two_digits_nat. lia.
Qed.

Lemma replaceAll_app (c d : ascii) (s t : string) :
  replaceAll c d (s ++ t) = replaceAll c d s ++ replaceAll c d t.
Proof.
  induction s as [|a s IH]; simpl; [reflexivity|].
  now rewrite IH.
Qed.

(** Decimal digits contain no slash. *)
Lemma replaceAll_uint (d : Decimal.uint) :
  replaceAll "/" "-" (NilEmpty.string_of_uint d) = NilEmpty.string_of_uint d.
Proof.
  induction d; simpl; try rewrite IHd; reflexivity.
Qed.

Lemma replaceAll_String_ (n : Z) :
  replaceAll "/" "-" (String_ n) = String_ n.
Proof.
  unfold String_, NilZero.string_of_int, NilZero.string_of_uint.
  destruct (Z.to_int n) as [d|d]; destruct d; simpl;
    try rewrite replaceAll_uint; reflexivity.
Qed.

Lemma replaceAll_two_digits_nat (k : nat) :
  (k < 100)%nat ->
  replaceAll "/" "-" (two_digits (Z.of_nat k)) = two_digits (Z.of_nat k).
Proof.
  intros Hk.
  do 100 (destruct k as [|k]; [reflexivity|]).
  lia.
Qed.

Lemma replaceAll_two_digits (n : Z) :
  (0 <= n <= 99)%Z ->
  replaceAll "/" "-" (two_digits n) = two_digits n.
Proof.
  intros Hn.
  rewrite <- (Z2Nat.id n) by lia.
  apply replaceAll_two_digits_nat. lia.
Qed.

Lemma formatDate_digits (d : Date) :
  Date_wf d ->
  formatDate d =
    String_ (getFullYear d) ++ "/" ++ two_digits (getMonth d + 1) ++ "/" ++
    two_digits (getDate d).
Proof.
  intros [Hm Hd]. unfold formatDate.
  rewrite !padStart_two_digits by lia.
  reflexivity.
Qed.

(** The year is printed as it is: four characters exactly for the years
    1000 to 9999, which makes the whole token ten characters long. *)
Lemma String_four_digits (n : Z) :
  (1000 <= n <= 9999)%Z -> String.length (String_ n) = 4%nat.
Proof.
  intros Hn.
  assert (H : forallb
                (fun k => Nat.eqb (String.length (String_ (Z.of_nat k))) 4)
                (seq 1000 (9 * 1000)) = true) by (vm_compute; reflexivity).
  rewrite forallb_forall in H.
  specialize (H (Z.to_nat n)).
  rewrite Z2Nat.id in H by lia.
  apply Nat.eqb_eq, H, in_seq. lia.
Qed.

Lemma length_append (s t : string) :
  String.length (s ++ t) = (String.length s + String.length t)%nat.
Proof.
  induction s as [|a s IH]; simpl; [reflexivity|].
  now rewrite IH.
Qed.

Lemma formatDate_length (d : Date) :
  Date_wf d -> (1000 <= getFullYear d <= 9999)%Z ->
  String.length (formatDate d) = 10%nat.
Proof.
  intros Hwf Hy. rewrite (formatDate_digits d Hwf).
  rewrite length_append, (String_four_digits _ Hy). reflexivity.
Qed.

Lemma download_digits (d : Date) :
  Date_wf d ->
  download (Some d) =
    "photo_" ++ String_ (getFullYear d) ++ "-" ++
    two_digits (getMonth d + 1) ++ "-" ++ two_digits (getDate d) ++ ".png".
Proof.
  intros Hwf. pose proof Hwf as [Hm Hd].
  unfold download. rewrite (formatDate_digits d Hwf).
  rewrite !replaceAll_app, replaceAll_String_.
  rewrite !replaceAll_two_digits by lia.
  rewrite !append_assoc. reflexivity.
Qed.

End StringFacts.

(** ** Running the callback *)

Section Running.

Variable b : Browser.

(** An unsigned long attribute keeps what it can hold, is never negative,
    and falls back to its default on a negative number. *)
Lemma unsigned_long_in_range (default v : Z) :
  (0 <= v <= 2147483647)%Z -> unsigned_long default v = v.
Proof.
  intros Hv. unfold unsigned_long.
  rewrite Z.mod_small by lia.
  destruct (Z.leb_spec v 2147483647); [reflexivity|lia].
Qed.

Lemma unsigned_long_nonneg (default v : Z) :
  (0 <= default)%Z -> (0 <= unsigned_long default v)%Z.
Proof.
  intros Hd. unfold unsigned_long.
  pose proof (Z.mod_pos_bound v 4294967296 ltac:(lia)).
  destruct (Z.leb_spec (v mod 4294967296) 2147483647); lia.
Qed.


Lemma canvas_of_size (src : string) (area : CroppedAreaPixels)
    (rot : Q) (cs : CropShape) (d : Date) :
  canvas_width (canvas_of b src area rot cs d) =
    unsigned_long 300 (width area) /\
  canvas_height (canvas_of b src area rot cs d) =
    unsigned_long 150 (height area).
Proof. destruct cs; split; reflexivity. Qed.

Lemma canvas_of_size_in_range (src : string) (area : CroppedAreaPixels)
    (rot : Q) (cs : CropShape) (d : Date) :
  (0 <= width area <= 2147483647)%Z ->
  (0 <= height area <= 2147483647)%Z ->
  canvas_width (canvas_of b src area rot cs d) = width area /\
  canvas_height (canvas_of b src area rot cs d) = height area.
Proof.
  intros Hw Hh. destruct (canvas_of_size src area rot cs d) as [-> ->].
  now rewrite !unsigned_long_in_range.
Qed.

Lemma canvas_of_nonneg (src : string) (area : CroppedAreaPixels)
    (rot : Q) (cs : CropShape) (d : Date) :
  (0 <= canvas_width (canvas_of b src area rot cs d))%Z /\
  (0 <= canvas_height (canvas_of b src area rot cs d))%Z.
Proof.
  destruct (canvas_of_size src area rot cs d) as [-> ->].
  split; apply unsigned_long_nonneg; lia.
Qed.

Lemma toDataURL_canvas_of (src : string) (area : CroppedAreaPixels)
    (rot : Q) (cs : CropShape) (d : Date) (type : string) :
  (0 < canvas_width (canvas_of b src area rot cs d))%Z ->
  (0 < canvas_height (canvas_of b src area rot cs d))%Z ->
  toDataURL (canvas_of b src area rot cs d) type =
    data_image type
      (mkBitmap (canvas_width (canvas_of b src area rot cs d))
         (canvas_height (canvas_of b src area rot cs d))
         (painted (canvas_of b src area rot cs d))).
Proof.
  intros Hw Hh. unfold toDataURL.
  destruct (Z.eqb_spec (canvas_width (canvas_of b src area rot cs d)) 0);
    [lia|].
  destruct (Z.eqb_spec (canvas_height (canvas_of b src area rot cs d)) 0);
    [lia|].
  reflexivity.
Qed.

(** Everything a run paints, in order: the image, the mask of a round
    crop, the label box and the label text.  The image is read with the
    size of the crop rectangle; everything else is placed by the size of
    the canvas. *)
Lemma painted_canvas_of (src : string) (area : CroppedAreaPixels)
    (rot : Q) (cs : CropShape) (d : Date) :
  let sw := inject_Z (width area) in
  let sh := inject_Z (height area) in
  let w := inject_Z (unsigned_long 300 (width area)) in
  let h := inject_Z (unsigned_long 150 (height area)) in
  let f := fontSize w in
  let p := padding w in
  let label := mkFont true f "Arial" in
  let tw := textWidth b label (formatDate d) in
  painted (canvas_of b src area rot cs d) =
   ((mkPainted
       (Image src (inject_Z (x area)) (inject_Z (y area)) sw sh 0 0 sw sh)
       (mkDrawingState
          [Translate (w / 2) (h / 2); Rotate (rot * Math_PI / 180);
           Translate (- w / 2) (- h / 2)]
          source_over black (font initial))
     :: match cs with
        | round =>
            [mkPainted
               (Filled
                  [([], Arc (w / 2) (h / 2) (Math_min w h / 2) 0
                          (Math_PI * 2))])
               (mkDrawingState [] destination_in black (font initial))]
        | rect => []
        end) ++
    [mkPainted
       (Rect p (h - (f + p * 2)) (tw + p * 2) (f + p * 2))
       (mkDrawingState [] source_over (rgba 0 0 0 0.7) label);
     mkPainted
       (Text (formatDate d) (p * 2) (h - p))
       (mkDrawingState [] source_over white label)])%list.
Proof. destruct cs; reflexivity. Qed.

Lemma final_state_canvas_of (src : string) (area : CroppedAreaPixels)
    (rot : Q) (cs : CropShape) (d : Date) :
  transform (current (canvas_of b src area rot cs d)) = [] /\
  globalCompositeOperation (current (canvas_of b src area rot cs d)) =
    source_over /\
  saved (canvas_of b src area rot cs d) = [].
Proof. destruct cs; repeat split; reflexivity. Qed.

(** With its three inputs present, a decodable image and a 2D context, the
    callback runs to [setFinalImage]. *)
Lemma outcome_generated (st : State) (src : string)
    (area : CroppedAreaPixels) (d : Date) :
  imageSrc st = Some src -> truthy_string (Some src) = true ->
  croppedAreaPixels st = Some area -> selectedDate st = Some d ->
  decodes b src = true -> context2d b = true ->
  createFinalImage_outcome b st =
    Generated
      (toDataURL (canvas_of b src area (rotation st) (cropShape st) d)
         "image/png").
Proof.
  intros Hsrc Ht Harea Hdate Hdec Hctx.
  unfold createFinalImage_outcome.
  rewrite Hsrc, Harea, Hdate, Ht, Hdec, Hctx. reflexivity.
Qed.

End Running.

(** ** The date token and the file name *)

Lemma String_is_four_digits (n : Z) :
  (1000 <= n <= 9999)%Z -> four_digits (String_ n) = true.
Proof.
  intros Hn.
  assert (H : forallb (fun k => four_digits (String_ (Z.of_nat k)))
                (seq 1000 (9 * 1000)) = true) by (vm_compute; reflexivity).
  rewrite forallb_forall in H.
  specialize (H (Z.to_nat n)).
  rewrite Z2Nat.id in H by lia.
  apply H, in_seq. lia.
Qed.

Lemma two_digits_are_digits_nat (k : nat) :
  (k < 100)%nat ->
  is_digit (digit (Z.of_nat k / 10)) && is_digit (digit (Z.of_nat k mod 10))
  = true.
Proof.
  intros Hk.
  do 100 (destruct k as [|k]; [reflexivity|]).
  lia.
Qed.

Lemma two_digits_are_digits (n : Z) :
  (0 <= n <= 99)%Z ->
  is_digit (digit (n / 10)) = true /\ is_digit (digit (n mod 10)) = true.
Proof.
  intros Hn. apply andb_prop.
  rewrite <- (Z2Nat.id n) by lia.
  apply two_digits_are_digits_nat. lia.
Qed.

(** C6, refuted as stated. The year is printed as it is, without padding:
    the ninth of January 999 is formatted as 999/01/09 and the tenth of
    October 12345 as 12345/10/10, neither of which is four digits, a slash,
    two digits, a slash and two digits. *)
Lemma formatDate_short_year :
  Date_wf (mkDate 999 0 9) /\
  formatDate (mkDate 999 0 9) = "999/01/09" /\
  YYYY_MM_DD (formatDate (mkDate 999 0 9)) = false /\
  Date_wf (mkDate 12345 9 10) /\
  formatDate (mkDate 12345 9 10) = "12345/10/10" /\
  YYYY_MM_DD (formatDate (mkDate 12345 9 10)) = false.
Proof.
  unfold Date_wf. cbn [getMonth getDate].
  repeat split; try lia; vm_compute; reflexivity.
Qed.

(** C6, as the code has it. For every calendar date, [formatDate] yields
    the year in decimal without padding, a slash, the month as two digits, a
    slash and the day of the month as two digits: months and days below ten
    carry a leading zero.  For the years 1000 to 9999 this is the token
    YYYY/MM/DD.  The seventh of March 2024 is formatted as the text
    2024/03/07. *)
Theorem formatDate_token (d : Date) :
  Date_wf d ->
  formatDate d =
    String_ (getFullYear d) ++ "/" ++ two_digits (getMonth d + 1) ++ "/" ++
    two_digits (getDate d) /\
  String.length (two_digits (getMonth d + 1)) = 2%nat /\
  String.length (two_digits (getDate d)) = 2%nat /\
  ((1000 <= getFullYear d <= 9999)%Z -> YYYY_MM_DD (formatDate d) = true) /\
  formatDate (mkDate 2024 2 7) = "2024/03/07".
Proof.
  intros Hwf. pose proof Hwf as [Hm Hd].
  split; [now apply formatDate_digits|].
  split; [reflexivity|]. split; [reflexivity|]. split; [|reflexivity].
  intros Hy. rewrite (formatDate_digits d Hwf).
  pose proof (String_is_four_digits _ Hy) as H4.
  destruct (String_ (getFullYear d)) as [|y1 [|y2 [|y3 [|y4 [|? ?]]]]];
    try discriminate.
  destruct (two_digits_are_digits (getMonth d + 1)) as [Hm1 Hm2]; [lia|].
  destruct (two_digits_are_digits (getDate d)) as [Hd1 Hd2]; [lia|].
  unfold two_digits. cbn [append YYYY_MM_DD].
  rewrite H4, Hm1, Hm2, Hd1, Hd2. reflexivity.
Qed.

Lemma formatDate_token_witness :
  Date_wf (mkDate 1999 11 31) /\
  formatDate (mkDate 1999 11 31) = "1999/12/31".
Proof.
  assert (Hwf : Date_wf (mkDate 1999 11 31)) by (unfold Date_wf; simpl; lia).
  split; [exact Hwf|].
  destruct (formatDate_token (mkDate 1999 11 31) Hwf) as [E _].
  rewrite E. reflexivity.
Defined.

(** C8. Once an image has been generated for a selected date on a canvas
    that has pixels, as it has for every crop rectangle of positive width
    and height up to 2147483647, the result link points at a PNG data URL of
    the canvas and its file name is photo_, the date token with each slash
    turned into a dash, and .png; the seventh of March 2024 gives
    photo_2024-03-07.png. *)
Theorem download_name_of_date (b : Browser) (st : State)
    (src : string) (area : CroppedAreaPixels) (d : Date) :
  imageSrc st = Some src -> truthy_string (Some src) = true ->
  croppedAreaPixels st = Some area -> selectedDate st = Some d ->
  decodes b src = true -> context2d b = true ->
  (0 < canvas_width (canvas_of b src area (rotation st) (cropShape st) d))%Z ->
  (0 < canvas_height (canvas_of b src area (rotation st) (cropShape st) d))%Z ->
  Date_wf d ->
  result_link (createFinalImage b st) =
    Some (mkAnchor
            (data_image "image/png"
               (mkBitmap
                  (canvas_width
                     (canvas_of b src area (rotation st) (cropShape st) d))
                  (canvas_height
                     (canvas_of b src area (rotation st) (cropShape st) d))
                  (painted
                     (canvas_of b src area (rotation st) (cropShape st) d))))
            ("photo_" ++ replaceAll "/" "-" (formatDate d) ++ ".png")) /\
  "photo_" ++ replaceAll "/" "-" (formatDate d) ++ ".png" =
    "photo_" ++ String_ (getFullYear d) ++ "-" ++
    two_digits (getMonth d + 1) ++ "-" ++ two_digits (getDate d) ++ ".png" /\
  download (Some (mkDate 2024 2 7)) = "photo_2024-03-07.png".
Proof.
  intros Hsrc Ht Harea Hdate Hdec Hctx Hw Hh Hwf.
  split; [|split; [exact (download_digits d Hwf)|reflexivity]].
  unfold result_link, createFinalImage.
  rewrite (outcome_generated b st src area d) by assumption.
  cbn [setFinalImage imageSrc finalImage selectedDate].
  rewrite Hsrc, Ht, Hdate.
  rewrite toDataURL_canvas_of by assumption.
  reflexivity.
Qed.

Lemma download_name_of_date_witness :
  result_link
    (createFinalImage Examples.browser
       (Examples.editing Examples.square_crop round None)) =
  Some (mkAnchor
          (data_image "image/png"
             (mkBitmap 100 100
                (painted
                   (canvas_of Examples.browser Examples.photo
                      Examples.square_crop 90 round Examples.march_7))))
          "photo_2024-03-07.png").
Proof.
  assert (Hwf : Date_wf Examples.march_7) by (unfold Date_wf; simpl; lia).
  pose proof (download_name_of_date Examples.browser
                (Examples.editing Examples.square_crop round None)
                Examples.photo Examples.square_crop Examples.march_7
                eq_refl eq_refl eq_refl eq_refl eq_refl eq_refl
                eq_refl eq_refl Hwf) as [E _].
  rewrite E. reflexivity.
Defined.

(** C10. When the date selection is cleared while a result is displayed, the
    result link keeps its target and its file name is exactly
    photo_edited.png. *)
Theorem download_name_without_date (st : State) (a : Anchor) :
  result_link st = Some a ->
  result_link (setSelectedDate None st) =
    Some (mkAnchor (href a) "photo_edited.png").
Proof.
  unfold result_link.
  cbn [setSelectedDate imageSrc finalImage selectedDate].
  destruct (truthy_string (imageSrc st)); [|discriminate].
  destruct (finalImage st) as [url|]; [|discriminate].
  intros E. injection E as <-. reflexivity.
Qed.

Lemma download_name_without_date_witness :
  result_link
    (setSelectedDate None
       (Examples.editing Examples.square_crop rect (Some Examples.earlier))) =
  Some (mkAnchor Examples.earlier "photo_edited.png").
Proof.
  apply (download_name_without_date
           (Examples.editing Examples.square_crop rect (Some Examples.earlier))
           (mkAnchor Examples.earlier "photo_2024-03-07.png")).
  reflexivity.
Defined.

(** ** The canvas of a run *)

Section Geometry.

Local Open Scope Q_scope.
Local Open Scope list_scope.

Variable b : Browser.
Variables (src : string) (area : CroppedAreaPixels) (d : Date).

(** C3. For every crop rectangle whose width and height are sizes a canvas
    can take, from 0 to 2147483647, and whatever the rotation angle and the
    crop shape, the canvas of a run is as wide and as high as the crop
    rectangle; the crop is drawn into a destination rectangle of the same
    size at the canvas origin, so nothing is rescaled, and a bitmap that is
    encoded has that size. *)
Theorem canvas_has_crop_size (rot : Q) (cs : CropShape) :
  (0 <= width area <= 2147483647)%Z ->
  (0 <= height area <= 2147483647)%Z ->
  let c := canvas_of b src area rot cs d in
  canvas_width c = width area /\
  canvas_height c = height area /\
  (exists sx sy under rest,
     painted c =
       mkPainted
         (Image src sx sy (inject_Z (width area)) (inject_Z (height area))
            0 0 (inject_Z (width area)) (inject_Z (height area)))
         under :: rest) /\
  match toDataURL c "image/png" with
  | data_none => width area = 0%Z \/ height area = 0%Z
  | data_image _ bm =>
      bitmap_width bm = width area /\ bitmap_height bm = height area
  end.
Proof.
  intros Hw Hh c. subst c.
  destruct (canvas_of_size_in_range b src area rot cs d Hw Hh) as [Ew Eh].
  split; [exact Ew|]. split; [exact Eh|]. split.
  - rewrite painted_canvas_of. cbv zeta.
    do 4 eexists. rewrite <- app_comm_cons. reflexivity.
  - unfold toDataURL. rewrite Ew, Eh.
    destruct (Z.eqb_spec (width area) 0); [left; assumption|].
    destruct (Z.eqb_spec (height area) 0); [right; assumption|].
    split; reflexivity.
Qed.

(** C7. The image is painted under a transform made of a translation by the
    canvas centre, a rotation by the angle in degrees times pi over 180 and
    the opposite translation, which leaves the canvas centre in place; the
    source rectangle handed to [drawImage] is the crop rectangle as it is.
    The transform is popped before anything else is painted: the mask, the
    label box and the label text are all painted under the identity
    transform, and so is every point of the mask's path. *)
Theorem rotation_wraps_only_the_image (trig : Q -> Q * Q)
    (rot : Q) (cs : CropShape) :
  let c := canvas_of b src area rot cs d in
  let w := inject_Z (canvas_width c) in
  let h := inject_Z (canvas_height c) in
  let turn :=
    [Translate (w / 2) (h / 2); Rotate (rot * Math_PI / 180);
     Translate (- w / 2) (- h / 2)] in
  (exists rest,
     painted c =
       mkPainted
         (Image src (inject_Z (x area)) (inject_Z (y area))
            (inject_Z (width area)) (inject_Z (height area)) 0 0
            (inject_Z (width area)) (inject_Z (height area)))
         (mkDrawingState turn source_over black (font initial)) :: rest /\
     Forall (fun it =>
               transform (under it) = [] /\
               match shape it with
               | Image _ _ _ _ _ _ _ _ _ => False
               | Filled p => Forall (fun seg => fst seg = []) p
               | Rect _ _ _ _ | Text _ _ _ => True
               end) rest) /\
  transform (current c) = [] /\
  saved c = [] /\
  fst (apply trig turn (w / 2, h / 2)) == w / 2 /\
  snd (apply trig turn (w / 2, h / 2)) == h / 2.
Proof.
  intros c w h turn. subst turn w h c.
  destruct (final_state_canvas_of b src area rot cs d) as (Et & _ & Es).
  destruct (canvas_of_size b src area rot cs d) as [-> ->].
  set (w := inject_Z (unsigned_long 300 (width area))).
  set (h := inject_Z (unsigned_long 150 (height area))).
  set (turn := [Translate (w / 2) (h / 2); Rotate (rot * Math_PI / 180);
                Translate (- w / 2) (- h / 2)]).
  split; [|split; [exact Et|split; [exact Es|]]].
  - rewrite painted_canvas_of. cbv zeta. rewrite <- app_comm_cons.
    eexists. split; [reflexivity|].
    destruct cs; repeat constructor.
  - unfold turn, apply. cbn [fold_right apply_step fst snd].
    destruct (trig (rot * Math_PI / 180)) as [co si].
    cbn [fst snd]. split; field.
Qed.

(** C5. The label is set in bold Arial at [min(w * 0.05, 32)] pixels, [w]
    being the canvas width, and the padding that places the box and the text
    is 0.75 times that size: a canvas 100 wide gets a 5 pixel font, one 1000
    wide gets 32 pixels. *)
Theorem label_font_scales_with_width (rot : Q) (cs : CropShape) :
  let c := canvas_of b src area rot cs d in
  let w := inject_Z (canvas_width c) in
  let size := Math_min (w * 0.05) 32 in
  (exists before by_ bw bh ty,
     painted c =
       before ++
       [mkPainted (Rect (size * 0.75) by_ bw bh)
          (mkDrawingState [] source_over (rgba 0 0 0 0.7)
             (mkFont true size "Arial"));
        mkPainted (Text (formatDate d) (size * 0.75 * 2) ty)
          (mkDrawingState [] source_over white
             (mkFont true size "Arial"))]) /\
  fontSize w = size /\
  padding w = size * 0.75 /\
  fontSize 100 == 5 /\
  fontSize 1000 == 32.
Proof.
  intros c w size. subst c w size.
  destruct (canvas_of_size b src area rot cs d) as [Ew _]. rewrite Ew.
  split.
  - rewrite painted_canvas_of. cbv zeta.
    do 5 eexists. reflexivity.
  - repeat split; vm_compute; reflexivity.
Qed.

Lemma fontSize_nonneg (w : Q) : 0 <= w -> 0 <= fontSize w.
Proof.
  intros Hw. unfold fontSize, Math_min.
  apply Q.min_glb; lra.
Qed.

Lemma padding_nonneg (w : Q) : 0 <= w -> 0 <= padding w.
Proof.
  intros Hw. unfold padding.
  pose proof (fontSize_nonneg w Hw). lra.
Qed.

(** C2, as the code has it. The label box is painted unrotated with its left
    edge [padding] pixels from the left canvas edge and its bottom edge on
    the bottom canvas edge; it is [fontSize + 2 * padding] high and the
    measured text width plus [2 * padding] wide.  The text starts
    [2 * padding] pixels from the left canvas edge with its baseline
    [padding] pixels above the bottom edge of the box, so that the text span
    lies inside the box from left to right and an em square standing on the
    baseline lies inside it from top to bottom. *)
Theorem label_box_geometry (rot : Q) (cs : CropShape) :
  (0 <= width area)%Z ->
  0 <= textWidth b (mkFont true (fontSize (inject_Z (width area))) "Arial")
         (formatDate d) ->
  let c := canvas_of b src area rot cs d in
  let h := inject_Z (canvas_height c) in
  let f := fontSize (inject_Z (canvas_width c)) in
  let p := padding (inject_Z (canvas_width c)) in
  let tw := textWidth b (mkFont true f "Arial") (formatDate d) in
  let box_x := p in
  let box_y := h - (f + p * 2) in
  let box_w := tw + p * 2 in
  let box_h := f + p * 2 in
  let text_x := p * 2 in
  let baseline := h - p in
  (exists before st_box st_text,
     painted c =
       before ++
       [mkPainted (Rect box_x box_y box_w box_h) st_box;
        mkPainted (Text (formatDate d) text_x baseline) st_text] /\
     transform st_box = [] /\ transform st_text = []) /\
  box_y + box_h == h /\
  box_x <= text_x /\ text_x + tw <= box_x + box_w /\
  box_y <= baseline - f /\ baseline <= box_y + box_h /\
  (box_y + box_h) - baseline == p.
Proof.
  intros Hw Htw c. subst c.
  destruct (canvas_of_size b src area rot cs d) as [Ew Eh].
  rewrite Ew, Eh. cbv zeta.
  assert (Hw' : 0 <= inject_Z (unsigned_long 300 (width area))).
  { change 0 with (inject_Z 0). rewrite <- Zle_Qle.
    apply unsigned_long_nonneg. lia. }
  pose proof (fontSize_nonneg _ Hw') as Hf.
  pose proof (padding_nonneg _ Hw') as Hp.
  split.
  - rewrite painted_canvas_of. cbv zeta.
    do 3 eexists. split; [reflexivity|]. split; reflexivity.
  - repeat split; try ring; lra.
Qed.

Lemma full_turn : full_circle 0 (Math_PI * 2) = true.
Proof. vm_compute. reflexivity. Qed.



(** Filling a full circle under destination-in keeps the alpha below it
    inside the disc and clears it outside. *)
Lemma mask_alpha (sample : Painted -> Point -> Q) (below : Painted)
    (cx cy r : Q) (f : Font) (p : Point) :
  render sample
    [below;
     mkPainted (Filled [([], Arc cx cy r 0 (Math_PI * 2))])
       (mkDrawingState [] destination_in black f)] p ==
  if in_disc cx cy r p then render sample [below] p else 0.
Proof.
  unfold render. cbn [fold_left]. unfold paint at 1.
  cbn [under globalCompositeOperation blend].
  unfold coverage at 1. cbn [shape under fillStyle].
  rewrite full_turn.
  destruct (in_disc cx cy r p); cbn [alpha black]; ring.
Qed.


End Geometry.

Lemma canvas_has_crop_size_witness :
  let c :=
    canvas_of Examples.browser Examples.photo Examples.square_crop 90 round
      Examples.march_7 in
  canvas_width c = 100%Z /\ canvas_height c = 100%Z.
Proof.
  assert (Hw : (0 <= width Examples.square_crop <= 2147483647)%Z)
    by (simpl; lia).
  assert (Hh : (0 <= height Examples.square_crop <= 2147483647)%Z)
    by (simpl; lia).
  pose proof (canvas_has_crop_size Examples.browser Examples.photo
                Examples.square_crop Examples.march_7 90 round Hw Hh) as G.
  cbv zeta in G. cbv zeta.
  destruct G as (Ew & Eh & _).
  exact (conj Ew Eh).
Defined.

(** Outside the sizes a canvas can take the assignment does not store the
    crop size: a negative width or height leaves the canvas at its default
    300 or 150, and a width of 2^32 + 100 wraps around to 100. *)
Lemma canvas_size_outside_range (b : Browser) (src : string) (d : Date)
    (rot : Q) (cs : CropShape) :
  canvas_width (canvas_of b src (mkArea 0 0 (-1) 50) rot cs d) = 300%Z /\
  canvas_height (canvas_of b src (mkArea 0 0 (-1) 50) rot cs d) = 50%Z /\
  canvas_height (canvas_of b src (mkArea 0 0 50 (-1)) rot cs d) = 150%Z /\
  canvas_width (canvas_of b src (mkArea 0 0 4294967396 50) rot cs d) = 100%Z.
Proof.
  repeat split.
  - exact (proj1 (canvas_of_size b src (mkArea 0 0 (-1) 50) rot cs d)).
  - exact (proj2 (canvas_of_size b src (mkArea 0 0 (-1) 50) rot cs d)).
  - exact (proj2 (canvas_of_size b src (mkArea 0 0 50 (-1)) rot cs d)).
  - exact (proj1 (canvas_of_size b src (mkArea 0 0 4294967396 50) rot cs d)).
Qed.

Lemma label_box_geometry_witness :
  let c :=
    canvas_of Examples.browser Examples.photo Examples.square_crop 90 round
      Examples.march_7 in
  let h := inject_Z (canvas_height c) in
  let f := fontSize (inject_Z (canvas_width c)) in
  let p := padding (inject_Z (canvas_width c)) in
  (h - (f + p * 2) + (f + p * 2) == h)%Q /\ (p <= p * 2)%Q.
Proof.
  assert (Hw : (0 <= width Examples.square_crop)%Z) by (simpl; lia).
  assert (Htw : (0 <= textWidth Examples.browser
                        (mkFont true
                           (fontSize (inject_Z (width Examples.square_crop)))
                           "Arial")
                        (formatDate Examples.march_7))%Q).
  { apply Qle_bool_imp_le. vm_compute. reflexivity. }
  pose proof (label_box_geometry Examples.browser Examples.photo
                Examples.square_crop Examples.march_7 90 round Hw Htw) as G.
  cbv zeta in G. cbv zeta.
  destruct G as (_ & Hbottom & Hleft & _).
  exact (conj Hbottom Hleft).
Defined.

(** C2, refuted as stated. On a 100 by 100 canvas, where the padding is 3.75
    pixels, the label box spans from 87.5 to 100 vertically: its bottom edge
    is the bottom edge of the canvas, and neither of its horizontal edges
    lies 3.75 pixels above it. *)
Lemma label_box_touches_bottom_edge :
  let c :=
    canvas_of Examples.browser Examples.photo Examples.square_crop 90 rect
      Examples.march_7 in
  exists bx by_ bw bh st,
    nth_error (painted c) 1 = Some (mkPainted (Rect bx by_ bw bh) st) /\
    (padding (inject_Z (canvas_width c)) == 3.75)%Q /\
    (bx == 3.75)%Q /\
    (inject_Z (canvas_height c) - (by_ + bh) == 0)%Q /\
    (inject_Z (canvas_height c) - by_ == 12.5)%Q /\
    ~ (inject_Z (canvas_height c) - (by_ + bh)
       == padding (inject_Z (canvas_width c)))%Q /\
    ~ (inject_Z (canvas_height c) - by_
       == padding (inject_Z (canvas_width c)))%Q.
Proof.
  cbv zeta. do 5 eexists. split.
  - rewrite painted_canvas_of. cbv zeta. cbn [app nth_error]. reflexivity.
  - repeat split; vm_compute; congruence.
Qed.


(** ** Guards and repeated runs *)




(** C9. The outcome of a run is a function of the image source, the crop
    area, the rotation, the crop shape and the date alone: two states that
    agree on these five, whatever else they hold, give the same outcome in
    the same browser, item for item, and a run that follows another on the
    same inputs generates the same result again. *)
Theorem composite_is_deterministic (b : Browser) (st1 st2 : State) :
  imageSrc st1 = imageSrc st2 ->
  croppedAreaPixels st1 = croppedAreaPixels st2 ->
  rotation st1 = rotation st2 ->
  cropShape st1 = cropShape st2 ->
  selectedDate st1 = selectedDate st2 ->
  createFinalImage_outcome b st1 = createFinalImage_outcome b st2 /\
  createFinalImage_outcome b (createFinalImage b st1) =
    createFinalImage_outcome b st1 /\
  match createFinalImage_outcome b st1 with
  | Generated url =>
      finalImage (createFinalImage b st1) = Some url /\
      finalImage (createFinalImage b st2) = Some url
  | Returned | Pending => True
  end.
Proof.
  intros Hsrc Harea Hrot Hshape Hdate.
  assert (E : createFinalImage_outcome b st1 = createFinalImage_outcome b st2).
  { unfold createFinalImage_outcome.
    rewrite Hsrc, Harea, Hrot, Hshape, Hdate. reflexivity. }
  split; [exact E|]. split.
  - unfold createFinalImage.
    destruct (createFinalImage_outcome b st1) eqn:E1; exact E1.
  - unfold createFinalImage. rewrite <- E.
    destruct (createFinalImage_outcome b st1); auto.
Qed.

Lemma composite_is_deterministic_witness :
  createFinalImage_outcome Examples.browser
    (Examples.editing Examples.square_crop round None) =
  createFinalImage_outcome Examples.browser
    (mkState (Some Examples.photo) (12, -7)%Q 2.5%Q 90%Q round (Some 1%Q)
       (Some Examples.square_crop) (Some Examples.march_7)
       (Some Examples.earlier) false).
Proof.
  apply (composite_is_deterministic Examples.browser
           (Examples.editing Examples.square_crop round None)
           (mkState (Some Examples.photo) (12, -7)%Q 2.5%Q 90%Q round
              (Some 1%Q) (Some Examples.square_crop) (Some Examples.march_7)
              (Some Examples.earlier) false));
    reflexivity.
Defined.

(** ** The quoted font sizes on doubles *)

(** Rounding does not disturb the two font sizes the specification quotes,
    nor the padding of the first: on doubles as on rationals, a width of 100
    gives 5 and 3.75, a width of 1000 gives 32 and 24. *)
Lemma label_metrics_binary64 :
  Binary64.fontSize 100 = 5%float /\
  Binary64.padding 100 = 3.75%float /\
  Binary64.fontSize 1000 = 32%float /\
  Binary64.padding 1000 = 24%float /\
  (fontSize 100 == 5)%Q /\ (padding 100 == 3.75)%Q /\
  (fontSize 1000 == 32)%Q /\ (padding 1000 == 24)%Q.
Proof.
  repeat split; vm_compute; reflexivity.
Qed.

(** * Further properties *)

(** ** Dates and file names *)

Lemma String_inj (n m : Z) : String_ n = String_ m -> n = m.
Proof.
  unfold String_. intros E.
  assert (Hnil : forall z, Z.to_int z <> Decimal.Pos Decimal.Nil /\
                           Z.to_int z <> Decimal.Neg Decimal.Nil).
  { intros z. split; intros H;
      assert (Hz : z = 0%Z)
        by (apply (f_equal Z.of_int) in H; rewrite DecimalZ.of_to in H;
            exact H);
      subst z; discriminate H. }
  apply DecimalZ.to_int_inj.
  apply (f_equal NilZero.int_of_string) in E.
  rewrite !NilZero.isi in E by apply Hnil.
  now injection E.
Qed.

Lemma append_inv_tail (s1 s2 t1 t2 : string) :
  String.length t1 = String.length t2 ->
  s1 ++ t1 = s2 ++ t2 -> s1 = s2 /\ t1 = t2.
Proof.
  revert s2. induction s1 as [|a s1 IH]; intros [|c s2] Hlen E; simpl in E.
  - now split.
  - exfalso. subst t1. simpl in Hlen. rewrite length_append in Hlen. lia.
  - exfalso. subst t2. simpl in Hlen. rewrite length_append in Hlen. lia.
  - injection E as -> E. destruct (IH s2 Hlen E) as [-> ->]. now split.
Qed.

Lemma two_digits_value_nat (k : nat) :
  (k < 100)%nat -> two_digits_value (two_digits (Z.of_nat k)) = Z.of_nat k.
Proof.
  intros Hk.
  do 100 (destruct k as [|k]; [reflexivity|]).
  lia.
Qed.

Lemma two_digits_inj (n m : Z) :
  (0 <= n <= 99)%Z -> (0 <= m <= 99)%Z ->
  two_digits n = two_digits m -> n = m.
Proof.
  intros Hn Hm E.
  apply (f_equal two_digits_value) in E.
  rewrite <- (Z2Nat.id n), <- (Z2Nat.id m) in E by lia.
  rewrite !two_digits_value_nat in E by lia.
  lia.
Qed.

Lemma date_parts_inj (d1 d2 : Date) (sep : string) (tail1 tail2 : string) :
  Date_wf d1 -> Date_wf d2 ->
  String.length sep = 1%nat ->
  String.length tail1 = String.length tail2 ->
  String_ (getFullYear d1) ++ sep ++ two_digits (getMonth d1 + 1) ++ sep ++
    two_digits (getDate d1) ++ tail1 =
  String_ (getFullYear d2) ++ sep ++ two_digits (getMonth d2 + 1) ++ sep ++
    two_digits (getDate d2) ++ tail2 ->
  d1 = d2.
Proof.
  intros [Hm1 Hd1] [Hm2 Hd2] Hsep Htail E.
  destruct sep as [|c [|? ?]]; try discriminate. clear Hsep.
  apply append_inv_tail in E.
  2:{ unfold two_digits. cbn [append String.length]. now rewrite Htail. }
  destruct E as [Ey E].
  apply String_inj in Ey.
  unfold two_digits in E. cbn [append] in E.
  injection E as Em1 Em2 Ed1 Ed2 _.
  assert (Em : (getMonth d1 + 1 = getMonth d2 + 1)%Z).
  { apply two_digits_inj; [lia|lia|]. unfold two_digits. now rewrite Em1, Em2. }
  assert (Ed : getDate d1 = getDate d2).
  { apply two_digits_inj; [lia|lia|]. unfold two_digits. now rewrite Ed1, Ed2. }
  destruct d1 as [y1 m1 dd1], d2 as [y2 m2 dd2]. cbn in *.
  f_equal; lia.
Qed.

(** X1. Two dates with the same label are the same date: [formatDate] is
    one-to-one on dates. *)
Theorem formatDate_injective (d1 d2 : Date) :
  Date_wf d1 -> Date_wf d2 -> formatDate d1 = formatDate d2 -> d1 = d2.
Proof.
  intros H1 H2 E.
  rewrite (formatDate_digits d1 H1), (formatDate_digits d2 H2) in E.
  apply (date_parts_inj d1 d2 "/" "" ""); try assumption; try reflexivity.
Qed.

Lemma formatDate_injective_witness :
  formatDate (mkDate (2000 + 24) (1 + 1) 7) = formatDate Examples.march_7 /\
  mkDate (2000 + 24) (1 + 1) 7 = Examples.march_7.
Proof.
  split; [reflexivity|].
  apply formatDate_injective;
    [unfold Date_wf; simpl; lia | unfold Date_wf; simpl; lia | reflexivity].
Defined.

(** X2. Two dates with the same download name are the same date. *)
Theorem download_injective (d1 d2 : Date) :
  Date_wf d1 -> Date_wf d2 ->
  download (Some d1) = download (Some d2) -> d1 = d2.
Proof.
  intros H1 H2 E.
  rewrite (download_digits d1 H1), (download_digits d2 H2) in E.
  cbn [append] in E.
  injection E as E.
  apply (date_parts_inj d1 d2 "-" ".png" ".png");
    try assumption; reflexivity.
Qed.

Lemma download_injective_witness :
  download (Some (mkDate (2000 + 24) (1 + 1) 7)) =
    download (Some Examples.march_7) /\
  mkDate (2000 + 24) (1 + 1) 7 = Examples.march_7.
Proof.
  split; [reflexivity|].
  apply download_injective;
    [unfold Date_wf; simpl; lia | unfold Date_wf; simpl; lia | reflexivity].
Defined.

Lemma occurs_append (c : ascii) (s t : string) :
  occurs c (s ++ t) = occurs c s || occurs c t.
Proof.
  induction s as [|a s IH]; simpl; [reflexivity|].
  now rewrite IH, Bool.orb_assoc.
Qed.

Lemma occurs_replaceAll (c d : ascii) (s : string) :
  c <> d -> occurs c (replaceAll c d s) = false.
Proof.
  intros Hcd. induction s as [|a s IH]; simpl; [reflexivity|].
  rewrite IH, Bool.orb_false_r.
  destruct (Ascii.eqb_spec a c) as [->|Hac].
  - apply Ascii.eqb_neq. congruence.
  - now apply Ascii.eqb_neq.
Qed.

(** X3. No download name holds a slash, whatever the date, also one outside
    the calendar ranges, and also when no date is selected. *)
Theorem download_has_no_slash (selectedDate : option Date) :
  occurs "/" (download selectedDate) = false.
Proof.
  unfold download. rewrite !occurs_append.
  destruct selectedDate as [d|].
  - rewrite occurs_replaceAll by discriminate. reflexivity.
  - reflexivity.
Qed.

(** The decimal form of an integer starts with a digit or a minus sign. *)
Lemma String_head (n : Z) :
  exists c s, String_ n = String c s /\ c <> "e"%char /\ c <> "/"%char.
Proof.
  unfold String_, NilZero.string_of_int, NilZero.string_of_uint.
  destruct (Z.to_int n) as [u|u].
  - destruct u; simpl; do 2 eexists; (split; [reflexivity|split; discriminate]).
  - do 2 eexists. split; [reflexivity|split; discriminate].
Qed.

(** X4. The name given to a dated image is never the fallback name
    photo_edited.png that is used when no date is selected. *)
Theorem dated_name_is_not_fallback (d : Date) :
  download (Some d) <> download None /\
  download None = "photo_edited.png".
Proof.
  split; [|reflexivity].
  unfold download, formatDate.
  destruct (String_head (getFullYear d)) as (c & s & -> & Hc & Hs).
  cbn [append replaceAll].
  intros E. injection E as E _.
  destruct (Ascii.eqb_spec c "/"); congruence.
Qed.

Lemma String_short (n : Z) :
  (0 <= n <= 999)%Z -> (String.length (String_ n) <= 3)%nat.
Proof.
  intros Hn.
  assert (H : forallb
                (fun k => Nat.leb (String.length (String_ (Z.of_nat k))) 3)
                (seq 0 1000) = true) by (vm_compute; reflexivity).
  rewrite forallb_forall in H.
  specialize (H (Z.to_nat n)).
  rewrite Z2Nat.id in H by lia.
  apply Nat.leb_le, H, in_seq. lia.
Qed.

(** X5. The year is printed without padding: among the years 0 to 9999 the
    label has the ten characters of YYYY/MM/DD exactly for the years from
    1000 on, and is shorter for the earlier ones. *)
Theorem label_has_ten_characters (d : Date) :
  Date_wf d -> (0 <= getFullYear d <= 9999)%Z ->
  (String.length (formatDate d) = 10%nat <-> (1000 <= getFullYear d)%Z) /\
  (String.length (formatDate d) <= 10)%nat.
Proof.
  intros Hwf Hy. rewrite (formatDate_digits d Hwf), length_append.
  replace (String.length
             ("/" ++ two_digits (getMonth d + 1) ++ "/" ++
              two_digits (getDate d))) with 6%nat by reflexivity.
  destruct (Z_lt_le_dec (getFullYear d) 1000) as [Hlt|Hge].
  - pose proof (String_short (getFullYear d)) as Hs.
    split; [split|]; lia.
  - pose proof (String_four_digits (getFullYear d)) as Hs.
    split; [split|]; lia.
Qed.

Lemma label_has_ten_characters_witness :
  String.length (formatDate Examples.march_7) = 10%nat.
Proof.
  apply (label_has_ten_characters Examples.march_7);
    unfold Date_wf; simpl; lia.
Defined.

(** ** The quick actions *)

Section QuickActions.

Local Open Scope Q_scope.

Lemma trunc_nonneg q : 0 <= q -> trunc q = Qfloor q.
Proof.
  destruct q as [n d]. unfold trunc, Qfloor, Qle. simpl. intros H.
  apply Z.quot_div_nonneg; lia.
Qed.

Lemma trunc_opp q : trunc (- q) = (- trunc q)%Z.
Proof. destruct q as [n d]. unfold trunc. simpl. apply Z.quot_opp_l. lia. Qed.

Lemma trunc_bounds_nonneg q : 0 <= q -> inject_Z (trunc q) <= q /\ q < inject_Z (trunc q) + 1.
Proof.
  intros H. rewrite (trunc_nonneg q H). split.
  - apply Qfloor_le.
  - pose proof (Qlt_floor q) as L. rewrite inject_Z_plus in L. exact L.
Qed.

Lemma trunc_bounds_nonpos q : q <= 0 -> q <= inject_Z (trunc q) /\ inject_Z (trunc q) - 1 < q.
Proof.
  intros H.
  assert (Hq : 0 <= - q) by lra.
  destruct (trunc_bounds_nonneg (- q) Hq) as [L U].
  rewrite trunc_opp, inject_Z_opp in L, U. split; lra.
Qed.

Lemma trunc_unique q k : inject_Z k <= q -> q < inject_Z k + 1 -> 0 <= q -> trunc q = k.
Proof.
  intros L U H. destruct (trunc_bounds_nonneg q H) as [L' U'].
  assert (A : inject_Z (trunc q) < inject_Z (k + 1)) by (rewrite inject_Z_plus; change (inject_Z 1) with 1; lra).
  assert (B : inject_Z k < inject_Z (trunc q + 1)) by (rewrite inject_Z_plus; change (inject_Z 1) with 1; lra).
  rewrite <- Zlt_Qlt in A, B. lia.
Qed.

Lemma rem_range_nonneg a n : 0 < n -> 0 <= a -> 0 <= rem a n /\ rem a n < n.
Proof.
  intros Hn Ha. unfold rem.
  assert (Hq : 0 <= a / n).
  { apply Qle_shift_div_l; lra. }
  destruct (trunc_bounds_nonneg _ Hq) as [L U].
  set (t := inject_Z (trunc (a / n))) in *.
  assert (E : a == n * (a / n)) by (field; lra).
  split.
  - assert (n * t <= n * (a / n)) by (apply Qmult_le_l; lra). lra.
  - assert (n * (a / n) < n * (t + 1)) by (apply Qmult_lt_l; lra). lra.
Qed.
Lemma rem_range_nonpos a n : 0 < n -> a <= 0 -> - n < rem a n /\ rem a n <= 0.
Proof.
  intros Hn Ha. unfold rem.
  assert (Hq : a / n <= 0).
  { apply Qle_shift_div_r; lra. }
  destruct (trunc_bounds_nonpos _ Hq) as [L U].
  set (t := inject_Z (trunc (a / n))) in *.
  assert (E : a == n * (a / n)) by (field; lra).
  split.
  - assert (n * (t - 1) < n * (a / n)) by (apply Qmult_lt_l; lra). lra.
  - assert (n * (a / n) <= n * t) by (apply Qmult_le_l; lra). lra.
Qed.
Lemma rem_shift a n k : 0 < n -> 0 <= a -> inject_Z k * n <= a -> a < inject_Z k * n + n -> rem a n == a - inject_Z k * n.
Proof.
  intros Hn Ha L U. unfold rem.
  assert (Hq : 0 <= a / n) by (apply Qle_shift_div_l; lra).
  rewrite (trunc_unique (a / n) k); try assumption.
  - ring.
  - apply Qle_shift_div_l; lra.
  - apply Qlt_shift_div_r; lra.
Qed.

Lemma quarter (r : Q) :
  0 <= r -> r < 360 ->
  (0 <= rem (r + 90) 360 /\ rem (r + 90) 360 < 360) /\
  ((r < 270 /\ rem (r + 90) 360 == r + 90) \/
   (270 <= r /\ rem (r + 90) 360 == r - 270)).
Proof.
  intros H0 H360.
  split; [apply rem_range_nonneg; lra|].
  destruct (Qlt_le_dec r 270) as [Hlt|Hge].
  - left. split; [exact Hlt|].
    rewrite (rem_shift (r + 90) 360 0); [ring|lra|lra| |];
      change (inject_Z 0) with 0; lra.
  - right. split; [exact Hge|].
    rewrite (rem_shift (r + 90) 360 1); [|lra|lra| |];
      change (inject_Z 1) with 1; lra.
Qed.

(** X6. The rotate button adds a quarter turn modulo 360: from an angle in
    0..360 it yields the angle 90 further on, wrapped back below 360, and
    four clicks bring the angle back.  From any angle the result lies
    strictly between -360 and 360, and it is negative only if the angle was
    below -90, since the remainder takes the sign of the sum. *)
Theorem rotate_click_is_a_quarter_turn (st : State) :
  let r := rotation st in
  let r' := rotation (onRotateClick st) in
  (- 360 < r' /\ r' < 360) /\
  (- 90 <= r -> 0 <= r') /\
  (0 <= r -> r < 270 -> r' == r + 90) /\
  (270 <= r -> r < 360 -> r' == r - 270) /\
  (0 <= r -> r < 360 -> rotation (Nat.iter 4 onRotateClick st) == r).
Proof.
  cbv zeta. cbn [onRotateClick setRotation rotation Nat.iter nat_rect].
  set (r := rotation st).
  split; [|split; [|split; [|split]]].
  - destruct (Qlt_le_dec (r + 90) 0) as [Hneg|Hpos].
    + assert (H : r + 90 <= 0) by lra.
      destruct (rem_range_nonpos (r + 90) 360 ltac:(lra) H). split; lra.
    + destruct (rem_range_nonneg (r + 90) 360 ltac:(lra) Hpos). split; lra.
  - intros H. apply rem_range_nonneg; lra.
  - intros H0 H1. destruct (quarter r) as (_ & [[_ E]|[F _]]); lra.
  - intros H0 H1. destruct (quarter r) as (_ & [[F _]|[_ E]]); lra.
  - intros H0 H1.
    destruct (quarter r H0 H1) as ((L1 & U1) & C1).
    set (r1 := rem (r + 90) 360) in *.
    destruct (quarter r1 L1 U1) as ((L2 & U2) & C2).
    set (r2 := rem (r1 + 90) 360) in *.
    destruct (quarter r2 L2 U2) as ((L3 & U3) & C3).
    set (r3 := rem (r2 + 90) 360) in *.
    destruct (quarter r3 L3 U3) as ((L4 & U4) & C4).
    set (r4 := rem (r3 + 90) 360) in *.
    destruct C1 as [[? ?]|[? ?]], C2 as [[? ?]|[? ?]],
             C3 as [[? ?]|[? ?]], C4 as [[? ?]|[? ?]]; lra.
Qed.

Lemma rotate_click_is_a_quarter_turn_witness :
  rotation (onRotateClick (Examples.editing Examples.square_crop rect None))
  == 180 /\
  rotation (Nat.iter 4 onRotateClick
              (Examples.editing Examples.square_crop rect None)) == 90.
Proof.
  pose proof (rotate_click_is_a_quarter_turn
                (Examples.editing Examples.square_crop rect None)) as H.
  cbv zeta in H. destruct H as (_ & _ & H1 & _ & H4).
  split.
  - rewrite H1.
    + reflexivity.
    + vm_compute. discriminate.
    + reflexivity.
  - apply H4.
    + vm_compute. discriminate.
    + reflexivity.
Defined.

Lemma zoom_iter (n : nat) (st : State) :
  zoom (Nat.iter (S n) onZoomClick st) ==
  Qmin (zoom st + inject_Z (Z.of_nat (S n)) * 0.1) 3.
Proof.
  induction n as [|n IH].
  - cbn [Nat.iter nat_rect onZoomClick setZoom zoom].
    unfold Math_min. change (inject_Z (Z.of_nat 1)) with 1.
    destruct (Q.min_spec (zoom st + 0.1) 3) as [[? ->]|[? ->]],
             (Q.min_spec (zoom st + 1 * 0.1) 3) as [[? ->]|[? ->]]; lra.
  - change (Nat.iter (S (S n)) onZoomClick st)
      with (onZoomClick (Nat.iter (S n) onZoomClick st)).
    cbn [onZoomClick setZoom zoom]. unfold Math_min.
    set (z := zoom (Nat.iter (S n) onZoomClick st)) in *.
    rewrite (Nat2Z.inj_succ (S n)), <- Z.add_1_r, inject_Z_plus.
    change (inject_Z 1) with 1.
    set (k := inject_Z (Z.of_nat (S n))) in *.
    destruct (Q.min_spec (zoom st + k * 0.1) 3) as [[? E1]|[? E1]],
             (Q.min_spec (z + 0.1) 3) as [[? ->]|[? ->]],
             (Q.min_spec (zoom st + (k + 1) * 0.1) 3) as [[? ->]|[? ->]];
      rewrite E1 in IH; lra.
Qed.

(** X7. The zoom button never takes the zoom above 3 and never lowers a
    zoom that is at most 3; it keeps a zoom of at least 1 at least 1; after
    [n] clicks, [n] at least one, the zoom is the start plus [n] tenths,
    capped at 3.  The reset button sets it to 1 and leaves the rest of the
    state alone. *)
Theorem zoom_click_is_capped (st : State) (n : nat) :
  zoom (onZoomClick st) <= 3 /\
  (zoom st <= 3 -> zoom st <= zoom (onZoomClick st)) /\
  (1 <= zoom st -> 1 <= zoom (onZoomClick st)) /\
  zoom (Nat.iter (S n) onZoomClick st) ==
    Qmin (zoom st + inject_Z (Z.of_nat (S n)) * 0.1) 3 /\
  onResetClick (Nat.iter n onZoomClick st) = setZoom 1 st.
Proof.
  cbn [onZoomClick setZoom zoom]. unfold Math_min.
  split; [apply Q.le_min_r|].
  split; [intros H; apply Q.min_glb; lra|].
  split; [intros H; apply Q.min_glb; lra|].
  split; [apply zoom_iter|].
  induction n as [|n IH]; [reflexivity|].
  rewrite <- IH. reflexivity.
Qed.

Lemma zoom_click_is_capped_witness :
  zoom (Nat.iter 25 onZoomClick
          (Examples.editing Examples.square_crop rect None)) == 3 /\
  1 <= zoom (onZoomClick (Examples.editing Examples.square_crop rect None)).
Proof.
  destruct (zoom_click_is_capped
              (Examples.editing Examples.square_crop rect None) 24)
    as (_ & _ & H1 & Hn & _).
  split.
  - rewrite Hn. vm_compute. reflexivity.
  - apply H1. vm_compute. discriminate.
Defined.

End QuickActions.

(** ** Sessions *)

Section Sessions.

Variable b : Browser.

Lemma run_snoc (a : App) (es : list Event) (e : Event) :
  run b a (es ++ [e]) = step b (run b a es) e.
Proof. unfold run. now rewrite fold_left_app. Qed.

Lemma run_app (a : App) (es es' : list Event) :
  run b a (es ++ es') = run b (run b a es) es'.
Proof. unfold run. now rewrite fold_left_app. Qed.

Lemma In_remove_nth {A} (i : nat) (l : list A) (v : A) :
  In v (remove_nth i l) -> In v l.
Proof.
  revert i. induction l as [|a l IH]; intros [|i]; simpl; auto.
  intros [H|H]; [left; exact H|right; exact (IH i H)].
Qed.

Lemma drawn_from_canvas_of (src : string) (area : CroppedAreaPixels)
    (rot : Q) (cs : CropShape) (d : Date) (type s : string) :
  drawn_from (toDataURL (canvas_of b src area rot cs d) type) = Some s ->
  s = src.
Proof.
  unfold toDataURL.
  destruct ((_ =? 0)%Z || (_ =? 0)%Z); [discriminate|].
  unfold drawn_from. cbn [bitmap_items].
  rewrite painted_canvas_of. cbv zeta. rewrite <- app_comm_cons.
  cbn [shape]. intros E. now injection E.
Qed.

(** The session agrees with [createFinalImage]: a click on Generate
    followed at once by the load of its image does what [createFinalImage]
    does in one go; a run whose image never loads stays pending and changes
    nothing. *)
Lemma click_then_load_is_createFinalImage (st : State) :
  let a := run b (mkApp st []) [GenerateClick; ImageLoaded 0] in
  ui a = createFinalImage b st /\
  match start st with
  | Some r => if loads b r then pending a = [] else pending a = [r]
  | None => pending a = []
  end.
Proof.
  cbv zeta. unfold run. cbn [fold_left step ui pending].
  unfold createFinalImage, createFinalImage_outcome, start.
  destruct (imageSrc st) as [src|]; [|split; reflexivity].
  destruct (croppedAreaPixels st) as [area|]; [|split; reflexivity].
  destruct (selectedDate st) as [d|]; [|split; reflexivity].
  destruct (truthy_string (Some src)); cbn [negb]; [|split; reflexivity].
  cbn [ui pending app nth_error]. unfold loads, finish. cbn [run_src].
  destruct (decodes b src); cbn [negb]; [|split; reflexivity].
  destruct (context2d b); cbn [negb]; split; reflexivity.
Qed.

(** X9. Apart from a new upload and the completion of a run, no handler
    changes the image the result link points at; the file name it offers is
    always computed from the date selected at that moment.  So after a
    change of date without a new Generate, the stamped image is offered
    under the name of the new date. *)
Theorem link_keeps_image_and_follows_date (a : App) (e : Event) :
  match e with FileLoaded _ | ImageLoaded _ => False | _ => True end ->
  result_link (ui (step b a e)) =
    option_map
      (fun l => mkAnchor (href l) (download (selectedDate (ui (step b a e)))))
      (result_link (ui a)) /\
  forall v, result_link (setSelectedDate v (ui a)) =
            option_map (fun l => mkAnchor (href l) (download v))
              (result_link (ui a)).
Proof.
  intros He. split.
  - unfold result_link.
    destruct e; try contradiction; cbn [step ui];
      try (cbn; destruct (truthy_string (imageSrc (ui a)));
           [destruct (finalImage (ui a))|]; reflexivity).
    destruct (start (ui a)); cbn [ui];
      (destruct (truthy_string (imageSrc (ui a)));
       [destruct (finalImage (ui a))|]; reflexivity).
  - intros v. unfold result_link.
    cbn [setSelectedDate imageSrc finalImage selectedDate].
    destruct (truthy_string (imageSrc (ui a)));
      [destruct (finalImage (ui a))|]; reflexivity.
Qed.

(** X10. A new upload shows the new image, removes the result from view and
    keeps the crop rectangle, rotation, shape and date as they are; a
    Generate click that comes before the cropper reports again draws the new
    image with the crop rectangle that was found for the old one. *)
Theorem upload_clears_result_keeps_crop (st : State) (result : string)
    (area : CroppedAreaPixels) (d : Date) :
  truthy_string (Some result) = true ->
  croppedAreaPixels st = Some area -> selectedDate st = Some d ->
  decodes b result = true -> context2d b = true ->
  let st' := onFileLoaded result st in
  imageSrc st' = Some result /\
  finalImage st' = None /\
  result_link st' = None /\
  croppedAreaPixels st' = Some area /\
  createFinalImage_outcome b st' =
    Generated
      (toDataURL (canvas_of b result area (rotation st) (cropShape st) d)
         "image/png").
Proof.
  intros Ht Harea Hdate Hdec Hctx st'. subst st'.
  split; [reflexivity|]. split; [reflexivity|]. split.
  - unfold result_link. cbn [onFileLoaded setFinalImage setImageSrc
                             imageSrc finalImage].
    destruct (truthy_string (Some result)); reflexivity.
  - split; [exact Harea|].
    apply (outcome_generated b (onFileLoaded result st) result area d);
      try assumption; reflexivity.
Qed.

(** Events that neither start nor complete a run leave the pending runs as
    they are. *)
Lemma quiet_pending (a : App) (mid : list Event) :
  forallb quiet mid = true -> pending (run b a mid) = pending a.
Proof.
  revert a. induction mid as [|e mid IH]; intros a H; [reflexivity|].
  cbn [forallb] in H. apply andb_prop in H. destruct H as [He Hmid].
  change (run b a (e :: mid)) with (run b (step b a e) mid).
  rewrite (IH _ Hmid). destruct e; try discriminate; reflexivity.
Qed.

(** X11. A run draws from the inputs it found when Generate was clicked:
    whatever uploads, date changes and other adjustments happen before its
    image has loaded, the result it stores is the composite of the image,
    crop, rotation, shape and date of the click, placed into the state as
    those later events left it. *)
Theorem run_uses_the_inputs_of_the_click (st : State) (src : string)
    (area : CroppedAreaPixels) (d : Date) (mid : list Event) :
  imageSrc st = Some src -> truthy_string (Some src) = true ->
  croppedAreaPixels st = Some area -> selectedDate st = Some d ->
  decodes b src = true -> context2d b = true ->
  forallb quiet mid = true ->
  let later := ui (run b (mkApp st []) mid) in
  let a := run b (mkApp st []) (GenerateClick :: mid ++ [ImageLoaded 0]) in
  ui a =
    setFinalImage
      (Some (toDataURL (canvas_of b src area (rotation st) (cropShape st) d)
               "image/png"))
      (ui (run b (mkApp st [mkRun src area (rotation st) (cropShape st) d])
             mid)) /\
  pending a = [] /\
  imageSrc (ui a) = imageSrc later /\
  selectedDate (ui a) = selectedDate later.
Proof.
  intros Hsrc Ht Harea Hdate Hdec Hctx Hmid later a. subst later a.
  change (run b (mkApp st []) (GenerateClick :: mid ++ [ImageLoaded 0]))
    with (run b (step b (mkApp st []) GenerateClick) (mid ++ [ImageLoaded 0])).
  assert (Es : start st =
               Some (mkRun src area (rotation st) (cropShape st) d)).
  { unfold start. rewrite Hsrc, Harea, Hdate, Ht. reflexivity. }
  cbn [step ui pending]. rewrite Es. cbn [app].
  set (r := mkRun src area (rotation st) (cropShape st) d).
  rewrite run_snoc.
  pose proof (quiet_pending (mkApp st [r]) mid Hmid) as Hp.
  cbn [pending] in Hp.
  cbn [step]. rewrite Hp. cbn [nth_error remove_nth].
  unfold loads. cbn [run_src r]. rewrite Hdec.
  unfold finish. rewrite Hctx. cbn [negb ui pending run_src run_area
                                   run_rotation run_shape run_date r].
  split; [reflexivity|]. split; [reflexivity|].
  cbn [setFinalImage imageSrc selectedDate].
  assert (Hui : forall l1 l2,
             ui (run b (mkApp st l1) mid) = ui (run b (mkApp st l2) mid)).
  { clear - Hmid. revert st. induction mid as [|e mid IH]; intros st l1 l2;
      [reflexivity|].
    cbn [forallb] in Hmid. apply andb_prop in Hmid. destruct Hmid as [He Hm].
    change (run b (mkApp st l1) (e :: mid))
      with (run b (step b (mkApp st l1) e) mid).
    change (run b (mkApp st l2) (e :: mid))
      with (run b (step b (mkApp st l2) e) mid).
    destruct e; try discriminate; cbn [step ui pending]; apply (IH Hm). }
  rewrite (Hui [r] []). split; reflexivity.
Qed.

Lemma imageSrc_finish (r : Run) (st : State) :
  imageSrc (finish b r st) = imageSrc st.
Proof. unfold finish. destruct (negb (context2d b)); reflexivity. Qed.

Lemma provenance_step (es : list Event) (a : App) (e : Event) :
  Provenance es a -> Provenance (es ++ [e]) (step b a e).
Proof.
  intros [H1 H2 H3 H4].
  assert (Hin : forall v, In v es -> In v (es ++ [e]))
    by (intros v Hv; apply in_or_app; now left).
  assert (Hlast : In e (es ++ [e]))
    by (apply in_or_app; right; now left).
  destruct e.
  all: try (constructor; cbn [step ui pending]; cbn; eauto; fail).
  - constructor; cbn [step ui pending]; cbn.
    + discriminate.
    + intros s E. injection E as <-. exact Hlast.
    + eauto.
    + discriminate.
  - cbn [step]. destruct (start (ui a)) as [r|] eqn:Es.
    + constructor; cbn [ui pending]; eauto.
      * intros _. unfold start in Es.
        destruct (imageSrc (ui a)); [discriminate|discriminate].
      * intros r' Hr'. apply in_app_or in Hr'. destruct Hr' as [Hr'|[<-|[]]].
        -- eauto.
        -- unfold start in Es.
           destruct (imageSrc (ui a)) as [src|] eqn:Esrc; [|discriminate].
           destruct (croppedAreaPixels (ui a)); [|discriminate].
           destruct (selectedDate (ui a)); [|discriminate].
           destruct (negb (truthy_string (Some src))); [discriminate|].
           injection Es as <-. cbn [run_src]. eauto.
    + constructor; eauto.
  - cbn [step]. destruct (nth_error (pending a) i) as [r|] eqn:En.
    + destruct (loads b r).
      * assert (Hr : In r (pending a)) by (eapply nth_error_In; eassumption).
        constructor; cbn [ui pending].
        -- intros _. rewrite imageSrc_finish.
           apply H1. right. intros E. rewrite E in Hr. exact Hr.
        -- intros s. rewrite imageSrc_finish. eauto.
        -- intros r' Hr'. apply In_remove_nth in Hr'. eauto.
        -- unfold finish. destruct (negb (context2d b)); [eauto|].
           cbn [setFinalImage finalImage]. intros u s E Hd.
           injection E as <-. apply drawn_from_canvas_of in Hd. subst s.
           eauto.
      * constructor; eauto.
    + constructor; eauto.
Qed.

(** X12. In every session that starts from the freshly mounted component, a
    result is on display or a run is pending only when an image is loaded,
    the loaded image is one the user uploaded, and the image a displayed
    result was drawn from is one of the uploads of the session. *)
Theorem result_comes_from_an_upload (today : Date) (es : list Event) :
  let a := run b (mkApp (mounted today) []) es in
  (finalImage (ui a) <> None \/ pending a <> [] -> imageSrc (ui a) <> None) /\
  (forall s, imageSrc (ui a) = Some s -> In (FileLoaded s) es) /\
  (forall u s, finalImage (ui a) = Some u -> drawn_from u = Some s ->
               In (FileLoaded s) es).
Proof.
  cbv zeta.
  assert (P : Provenance es (run b (mkApp (mounted today) []) es)).
  { induction es as [|e es IH] using rev_ind.
    - constructor; cbn.
      + intros [H|H]; now elim H.
      + discriminate.
      + intros r [].
      + discriminate.
    - rewrite run_snoc. now apply provenance_step. }
  destruct P as [H1 H2 _ H4]. auto.
Qed.

End Sessions.

Lemma link_keeps_image_and_follows_date_witness :
  result_link
    (ui (step Examples.browser
           (mkApp (Examples.editing Examples.square_crop rect
                     (Some Examples.earlier)) [])
           (DateChange (Some Examples2.new_year)))) =
  Some (mkAnchor Examples.earlier "photo_2025-01-01.png").
Proof.
  destruct (link_keeps_image_and_follows_date Examples.browser
              (mkApp (Examples.editing Examples.square_crop rect
                        (Some Examples.earlier)) [])
              (DateChange (Some Examples2.new_year)) I) as [E _].
  rewrite E. reflexivity.
Defined.

Lemma upload_clears_result_keeps_crop_witness :
  result_link
    (onFileLoaded Examples2.other_photo
       (Examples.editing Examples.square_crop round (Some Examples.earlier)))
  = None /\
  createFinalImage_outcome Examples.browser
    (onFileLoaded Examples2.other_photo
       (Examples.editing Examples.square_crop round (Some Examples.earlier)))
  = Generated
      (toDataURL
         (canvas_of Examples.browser Examples2.other_photo
            Examples.square_crop 90 round Examples.march_7) "image/png").
Proof.
  pose proof (upload_clears_result_keeps_crop Examples.browser
                (Examples.editing Examples.square_crop round
                   (Some Examples.earlier))
                Examples2.other_photo Examples.square_crop Examples.march_7
                eq_refl eq_refl eq_refl eq_refl eq_refl) as H.
  cbv zeta in H. destruct H as (_ & _ & Hlink & _ & Hgen).
  exact (conj Hlink Hgen).
Defined.

Lemma run_uses_the_inputs_of_the_click_witness :
  let a :=
    run Examples.browser
      (mkApp (Examples.editing Examples.square_crop round None) [])
      [GenerateClick; FileLoaded Examples2.other_photo; DateChange None;
       ImageLoaded 0] in
  imageSrc (ui a) = Some Examples2.other_photo /\
  selectedDate (ui a) = None /\
  pending a = [] /\
  option_map drawn_from (finalImage (ui a)) = Some (Some Examples.photo).
Proof.
  pose proof (run_uses_the_inputs_of_the_click Examples.browser
                (Examples.editing Examples.square_crop round None)
                Examples.photo Examples.square_crop Examples.march_7
                [FileLoaded Examples2.other_photo; DateChange None]
                eq_refl eq_refl eq_refl eq_refl eq_refl eq_refl eq_refl)
    as H.
  cbv zeta in H. cbv zeta. cbn [app] in H.
  destruct H as (Hui & Hp & Hsrc & Hdate).
  split; [rewrite Hsrc; reflexivity|].
  split; [rewrite Hdate; reflexivity|].
  split; [exact Hp|].
  rewrite Hui. cbn [setFinalImage finalImage option_map].
  vm_compute. reflexivity.
Defined.

Lemma result_comes_from_an_upload_witness :
  In (FileLoaded Examples.photo)
    [FileLoaded Examples.photo; CropComplete Examples.square_crop;
     GenerateClick; ImageLoaded 0].
Proof.
  destruct (result_comes_from_an_upload Examples.browser Examples.march_7
              [FileLoaded Examples.photo; CropComplete Examples.square_crop;
               GenerateClick; ImageLoaded 0]) as (_ & H & _).
  apply H. vm_compute. reflexivity.
Defined.

(** ** The finished image *)

Section Finished.

Local Open Scope Q_scope.
Local Open Scope list_scope.

Variable sample : Painted -> Point -> Q.
Variable b : Browser.
Variables (src : string) (area : CroppedAreaPixels) (d : Date).

Lemma render_snoc (items : list Painted) (it : Painted) (p : Point) :
  render sample (items ++ [it]) p = paint sample (render sample items) it p.
Proof. unfold render. now rewrite fold_left_app. Qed.

Lemma render_snoc2 (items : list Painted) (it1 it2 : Painted) (p : Point) :
  render sample (items ++ [it1; it2]) p =
  paint sample (paint sample (render sample items) it1) it2 p.
Proof.
  change [it1; it2] with ([it1] ++ [it2]).
  unfold render. now rewrite !fold_left_app.
Qed.

Lemma over_clear (below : Point -> Q) (it : Painted) (p : Point) :
  globalCompositeOperation (under it) = source_over ->
  coverage sample it p == 0 ->
  paint sample below it p == below p.
Proof.
  intros Hop Hc. unfold paint. rewrite Hop. cbn [blend]. rewrite Hc. ring.
Qed.

Lemma over_bounds (s t : Q) :
  0 <= s -> s <= 1 -> 0 <= t -> t <= 1 ->
  s <= s + t * (1 - s) /\ t <= s + t * (1 - s) /\ s + t * (1 - s) <= 1.
Proof. intros. repeat split; nra. Qed.

(** X13. Outside the label the finished image is the cropped image: at a
    point that the label box does not cover and where the text leaves no
    ink, the alpha of a rectangular crop is the alpha the image left, and
    that of a round crop is the same inside the circle and zero outside. *)
Theorem label_leaves_the_rest_alone (rot : Q) (cs : CropShape) (p : Point) :
  let c := canvas_of b src area rot cs d in
  let w := inject_Z (canvas_width c) in
  let h := inject_Z (canvas_height c) in
  in_box (painted c) p = false ->
  no_glyph sample (painted c) p ->
  render sample (painted c) p ==
    match cs with
    | rect => render sample (firstn 1 (painted c)) p
    | round =>
        if in_disc (w / 2) (h / 2) (Math_min w h / 2) p
        then render sample (firstn 1 (painted c)) p
        else 0
    end.
Proof.
  intros c w h. subst c w h.
  destruct (canvas_of_size b src area rot cs d) as [-> ->].
  rewrite painted_canvas_of. cbv zeta.
  intros Hbox Hink.
  assert (Hrect :
            in_rect (padding (inject_Z (unsigned_long 300 (width area))))
              (inject_Z (unsigned_long 150 (height area))
               - (fontSize (inject_Z (unsigned_long 300 (width area)))
                  + padding (inject_Z (unsigned_long 300 (width area))) * 2))
              (textWidth b
                 (mkFont true (fontSize (inject_Z (unsigned_long 300 (width area)))) "Arial")
                 (formatDate d)
               + padding (inject_Z (unsigned_long 300 (width area))) * 2)
              (fontSize (inject_Z (unsigned_long 300 (width area)))
               + padding (inject_Z (unsigned_long 300 (width area))) * 2) p = false).
  { destruct cs; cbn [app in_box existsb shape orb] in Hbox;
      apply Bool.orb_false_iff in Hbox; tauto. }
  assert (Htext :
            sample
              (mkPainted
                 (Text (formatDate d) (padding (inject_Z (unsigned_long 300 (width area))) * 2)
                    (inject_Z (unsigned_long 150 (height area)) - padding (inject_Z (unsigned_long 300 (width area)))))
                 (mkDrawingState [] source_over white
                    (mkFont true (fontSize (inject_Z (unsigned_long 300 (width area)))) "Arial")))
              p == 0).
  { unfold no_glyph in Hink. rewrite Forall_forall in Hink.
    apply (Hink (mkPainted (Text _ _ _) _)).
    apply in_or_app. right. right. left. reflexivity. }
  clear Hbox Hink.
  rewrite render_snoc2, over_clear;
    [|reflexivity|unfold coverage; cbn [shape]; exact Htext].
  rewrite over_clear;
    [|reflexivity
     |unfold coverage; cbn [shape under transform]; rewrite Hrect;
      reflexivity].
  destruct cs; cbn [firstn app].
  - reflexivity.
  - apply mask_alpha.
Qed.

(** X14. The circle never cuts into the label: at every point the label box
    covers, the finished image is at least 70 percent opaque, for round
    crops as for rectangular ones, as long as image and glyph coverage are
    between 0 and 1. *)
Theorem label_box_is_never_masked (rot : Q) (cs : CropShape) (p : Point) :
  (forall it q, 0 <= sample it q /\ sample it q <= 1) ->
  let c := canvas_of b src area rot cs d in
  in_box (painted c) p = true ->
  0.7 <= render sample (painted c) p /\ render sample (painted c) p <= 1.
Proof.
  intros Hs c. subst c.
  rewrite painted_canvas_of. cbv zeta.
  intros Hbox.
  assert (Hrect :
            in_rect (padding (inject_Z (unsigned_long 300 (width area))))
              (inject_Z (unsigned_long 150 (height area))
               - (fontSize (inject_Z (unsigned_long 300 (width area)))
                  + padding (inject_Z (unsigned_long 300 (width area))) * 2))
              (textWidth b
                 (mkFont true (fontSize (inject_Z (unsigned_long 300 (width area)))) "Arial")
                 (formatDate d)
               + padding (inject_Z (unsigned_long 300 (width area))) * 2)
              (fontSize (inject_Z (unsigned_long 300 (width area)))
               + padding (inject_Z (unsigned_long 300 (width area))) * 2) p = true).
  { destruct cs; cbn [app in_box existsb shape orb] in Hbox;
      rewrite ?Bool.orb_false_r in Hbox; exact Hbox. }
  clear Hbox.
  match goal with
  | |- context [render sample (?l ++ [?bx; ?tx]) p] =>
      remember l as items eqn:Hitems; set (box := bx) in *;
      set (text := tx) in *
  end.
  assert (E : render sample (items ++ [box; text]) p ==
              sample text p
              + (0.7 + render sample items p * (1 - 0.7))
                * (1 - sample text p)).
  { rewrite render_snoc2. unfold paint, box, text.
    cbn [under globalCompositeOperation blend].
    unfold coverage.
    cbn [shape under transform fillStyle alpha].
    rewrite Hrect. reflexivity. }
  rewrite E. clear E.
  assert (Hbelow : 0 <= render sample items p /\ render sample items p <= 1).
  { subst items.
    match goal with
    | |- context [?i :: match cs with round => _ | rect => _ end] =>
        set (img := i)
    end.
    destruct (Hs img p) as [Hi0 Hi1].
    assert (Ei : render sample [img] p == sample img p).
    { unfold render. cbn [fold_left]. unfold paint, coverage, img.
      cbn [shape under globalCompositeOperation blend]. ring. }
    destruct cs.
    - rewrite Ei. split; assumption.
    - rewrite mask_alpha. destruct (in_disc _ _ _ p).
      + rewrite Ei. split; assumption.
      + split; lra. }
  destruct Hbelow as [Ha0 Ha1].
  destruct (Hs text p) as [Ht0 Ht1].
  set (t := sample text p) in *.
  set (a0 := render sample items p) in *.
  split; nra.
Qed.

End Finished.

Lemma label_leaves_the_rest_alone_witness :
  let c :=
    canvas_of Examples.browser Examples.photo Examples.square_crop 90 rect
      Examples.march_7 in
  (render Examples2.opaque_photo (painted c) (50, 50)
   == render Examples2.opaque_photo (firstn 1 (painted c)) (50, 50))%Q.
Proof.
  cbv zeta.
  apply (label_leaves_the_rest_alone Examples2.opaque_photo Examples.browser
           Examples.photo Examples.square_crop Examples.march_7 90 rect
           (50, 50)%Q).
  - vm_compute. reflexivity.
  - rewrite painted_canvas_of. cbv zeta. cbn [app].
    repeat constructor.
Defined.

Lemma label_box_is_never_masked_witness :
  let c :=
    canvas_of Examples.browser Examples.photo Examples.square_crop 90 round
      Examples.march_7 in
  in_disc 50 50 50 (10, 90)%Q = false /\
  (0.7 <= render Examples2.opaque_photo (painted c) (10, 90))%Q.
Proof.
  cbv zeta. split; [vm_compute; reflexivity|].
  apply (label_box_is_never_masked Examples2.opaque_photo Examples.browser
           Examples.photo Examples.square_crop Examples.march_7 90 round
           (10, 90)%Q).
  - intros it q. unfold Examples2.opaque_photo.
    destruct (shape it); split; vm_compute; discriminate.
  - vm_compute. reflexivity.
Defined.

(** ** The two versions of the label *)

Section Versions.

Local Open Scope Q_scope.
Local Open Scope list_scope.

Variable b : Browser.
Variables (src : string) (area : CroppedAreaPixels) (d : Date).

Lemma painted_first_version (rot : Q) (cs : CropShape) :
  let sw := inject_Z (width area) in
  let sh := inject_Z (height area) in
  let w := inject_Z (unsigned_long 300 (width area)) in
  let h := inject_Z (unsigned_long 150 (height area)) in
  painted (FirstVersion.canvas_of src area rot cs d) =
   ((mkPainted
       (Image src (inject_Z (x area)) (inject_Z (y area)) sw sh 0 0 sw sh)
       (mkDrawingState
          [Translate (w / 2) (h / 2); Rotate (rot * Math_PI / 180);
           Translate (- w / 2) (- h / 2)]
          source_over black (font initial))
     :: match cs with
        | round =>
            [mkPainted
               (Filled
                  [([], Arc (w / 2) (h / 2) (Math_min w h / 2) 0
                          (Math_PI * 2))])
               (mkDrawingState [] destination_in black (font initial))]
        | rect => []
        end) ++
    [mkPainted (Rect 10 (h - 40) 150 30)
       (mkDrawingState [] source_over (rgba 0 0 0 0.6) (font initial));
     mkPainted (Text (formatDate d) 20 (h - 20))
       (mkDrawingState [] source_over white (mkFont true 16 "Arial"))]).
Proof. destruct cs; reflexivity. Qed.

Lemma first_version_size (rot : Q) (cs : CropShape) :
  canvas_width (FirstVersion.canvas_of src area rot cs d) =
    unsigned_long 300 (width area) /\
  canvas_height (FirstVersion.canvas_of src area rot cs d) =
    unsigned_long 150 (height area).
Proof. destruct cs; split; reflexivity. Qed.

(** X15. The two versions of [createFinalImage] in the file draw the same
    canvas up to the label: same size, same image under the same rotation,
    same circular mask.  They differ in the last two items only, the label
    box and the label text, which carry the same date text. *)
Theorem versions_differ_in_the_label_only (rot : Q) (cs : CropShape) :
  let c1 := FirstVersion.canvas_of src area rot cs d in
  let c2 := canvas_of b src area rot cs d in
  canvas_width c1 = canvas_width c2 /\
  canvas_height c1 = canvas_height c2 /\
  exists before box1 box2 x1 y1 x2 y2 st1 st2,
    painted c1 = before ++ [box1; mkPainted (Text (formatDate d) x1 y1) st1] /\
    painted c2 = before ++ [box2; mkPainted (Text (formatDate d) x2 y2) st2] /\
    List.length before = match cs with rect => 1%nat | round => 2%nat end /\
    fillStyle st1 = white /\ fillStyle st2 = white /\
    bold (font st1) = true /\ bold (font st2) = true.
Proof.
  cbv zeta.
  destruct (canvas_of_size b src area rot cs d) as [-> ->].
  destruct (first_version_size rot cs) as [-> ->].
  split; [reflexivity|]. split; [reflexivity|].
  rewrite painted_first_version, painted_canvas_of. cbv zeta.
  do 9 eexists. split; [reflexivity|]. split; [reflexivity|].
  destruct cs; repeat split; reflexivity.
Qed.

(** X16. In the first version the label does not scale: the box is 150 by
    30 pixels, 10 pixels from the left edge and 10 pixels above the bottom
    edge of the canvas, whatever the canvas size and the text; the 16 pixel
    text starts 10 pixels inside it on a baseline 10 pixels above its bottom
    edge.  The text fits between the left and right edges of the box exactly
    when it is at most 140 pixels wide, and on a canvas narrower than 160
    pixels the box reaches beyond the right edge. *)
Theorem first_version_label_is_fixed (rot : Q) (cs : CropShape) (tw : Q) :
  let c := FirstVersion.canvas_of src area rot cs d in
  let w := inject_Z (canvas_width c) in
  let h := inject_Z (canvas_height c) in
  exists before st_box st_text bx by_ bw bh tx ty,
    painted c =
      before ++ [mkPainted (Rect bx by_ bw bh) st_box;
                 mkPainted (Text (formatDate d) tx ty) st_text] /\
    bx == 10 /\ bw == 150 /\ bh == 30 /\
    h - (by_ + bh) == 10 /\
    tx - bx == 10 /\ (by_ + bh) - ty == 10 /\
    size_px (font st_text) == 16 /\
    by_ <= ty - size_px (font st_text) /\
    alpha (fillStyle st_box) == 0.6 /\
    (tx + tw <= bx + bw <-> tw <= 140) /\
    (w < 160 <-> w < bx + bw).
Proof.
  cbv zeta.
  destruct (first_version_size rot cs) as [-> ->].
  rewrite painted_first_version. cbv zeta.
  do 9 eexists. split; [reflexivity|].
  cbn [font size_px fillStyle alpha].
  repeat split; try ring; try lra; intros; lra.
Qed.

(** X17. In the second version the label grows with the canvas up to a cap
    reached at a width of 640 pixels: below that the font size is a
    twentieth of the width, from there on it is 32 pixels.  No item is
    painted in a font above 32 pixels and the label box is never higher
    than 80 pixels. *)
Theorem label_stops_growing_at_640 (rot : Q) (cs : CropShape) :
  (0 <= width area)%Z ->
  let c := canvas_of b src area rot cs d in
  let w := inject_Z (canvas_width c) in
  Forall (fun it =>
            0 <= size_px (font (under it)) <= 32 /\
            match shape it with
            | Rect _ _ _ rh => 0 <= rh <= 80
            | _ => True
            end) (painted c) /\
  (w <= 640 -> fontSize w == w / 20) /\
  (640 <= w -> fontSize w == 32) /\
  (forall w1 w2, w1 <= w2 -> fontSize w1 <= fontSize w2).
Proof.
  intros Hw c. subst c.
  destruct (canvas_of_size b src area rot cs d) as [-> _].
  assert (Hw' : 0 <= inject_Z (unsigned_long 300 (width area))).
  { change 0 with (inject_Z 0). rewrite <- Zle_Qle.
    apply unsigned_long_nonneg. lia. }
  pose proof (fontSize_nonneg _ Hw') as Hf.
  assert (Hcap : forall v, fontSize v <= 32)
    by (intros v; unfold fontSize, Math_min; apply Q.le_min_r).
  pose proof (Hcap (inject_Z (unsigned_long 300 (width area)))) as Hf32.
  split; [|split; [|split]].
  - rewrite painted_canvas_of. cbv zeta.
    unfold padding.
    destruct cs; cbn [app];
      repeat (apply Forall_cons;
              [cbn [shape under font size_px initial];
               repeat split; first [exact I | lra]|]);
      apply Forall_nil.
  - intros H. unfold fontSize, Math_min.
    rewrite Q.min_l by lra. field.
  - intros H. unfold fontSize, Math_min.
    rewrite Q.min_r by lra. reflexivity.
  - intros w1 w2 H. unfold fontSize, Math_min.
    apply Q.min_le_compat_r. lra.
Qed.

(** X18. The transform the image is drawn under is a turn about the canvas
    centre: with (c, s) the cosine and sine of the angle it sends a point
    to the centre plus the rotated offset of the point from the centre.
    With cosine 1 and sine 0, as for an angle of 0, every point stays where
    it is, and for a genuine rotation the distance to the centre is kept. *)
Theorem image_turns_about_the_centre (trig : Q -> Q * Q)
    (rot : Q) (cs : CropShape) (p : Point) :
  let c := canvas_of b src area rot cs d in
  let cx := inject_Z (canvas_width c) / 2 in
  let cy := inject_Z (canvas_height c) / 2 in
  let co := fst (trig (rot * Math_PI / 180)) in
  let si := snd (trig (rot * Math_PI / 180)) in
  exists img rest,
    painted c = img :: rest /\
    let q := apply trig (transform (under img)) p in
    fst q == cx + (co * (fst p - cx) - si * (snd p - cy)) /\
    snd q == cy + (si * (fst p - cx) + co * (snd p - cy)) /\
    (co == 1 -> si == 0 -> fst q == fst p /\ snd q == snd p) /\
    (co * co + si * si == 1 ->
     (fst q - cx) * (fst q - cx) + (snd q - cy) * (snd q - cy) ==
     (fst p - cx) * (fst p - cx) + (snd p - cy) * (snd p - cy)).
Proof.
  cbv zeta.
  destruct (canvas_of_size b src area rot cs d) as [-> ->].
  rewrite painted_canvas_of. cbv zeta. rewrite <- app_comm_cons.
  do 2 eexists. split; [reflexivity|].
  cbn [under transform]. unfold apply.
  cbn [fold_right apply_step fst snd].
  destruct (trig (rot * Math_PI / 180)) as [co si]. cbn [fst snd].
  set (w := inject_Z (unsigned_long 300 (width area))).
  set (h := inject_Z (unsigned_long 150 (height area))).
  assert (E1 : co * (fst p + - w / 2) - si * (snd p + - h / 2) + w / 2 ==
               w / 2 + (co * (fst p - w / 2) - si * (snd p - h / 2)))
    by field.
  assert (E2 : si * (fst p + - w / 2) + co * (snd p + - h / 2) + h / 2 ==
               h / 2 + (si * (fst p - w / 2) + co * (snd p - h / 2)))
    by field.
  split; [exact E1|]. split; [exact E2|]. split.
  - intros Hc Hs. rewrite E1, E2, Hc, Hs. split; field.
  - intros Hcs. rewrite E1, E2.
    set (u := fst p - w / 2). set (v := snd p - h / 2).
    assert (E : (w / 2 + (co * u - si * v) - w / 2) *
                (w / 2 + (co * u - si * v) - w / 2) +
                (h / 2 + (si * u + co * v) - h / 2) *
                (h / 2 + (si * u + co * v) - h / 2) ==
                (co * co + si * si) * (u * u + v * v)) by field.
    rewrite E, Hcs. ring.
Qed.

(** X19. The label box, whose lower left corner lies on the bottom edge of
    the canvas, is as high as two and a half font sizes, so its top lies on
    the canvas exactly when the canvas is at least that high; up to a width
    of 640 pixels this means that the crop is at most eight times as wide as
    it is high, from there on that it is at least 80 pixels high.  On lower
    canvases the top of the box is cut off. *)
Theorem label_box_fits_under_the_top_edge (rot : Q) (cs : CropShape) :
  (0 <= width area)%Z ->
  let c := canvas_of b src area rot cs d in
  let w := inject_Z (canvas_width c) in
  let h := inject_Z (canvas_height c) in
  Forall (fun it =>
            match shape it with
            | Rect _ by_ _ bh =>
                bh == fontSize w * 2.5 /\
                (0 <= by_ <-> fontSize w * 2.5 <= h) /\
                (w <= 640 -> (0 <= by_ <-> w <= 8 * h)) /\
                (640 <= w -> (0 <= by_ <-> 80 <= h))
            | _ => True
            end) (painted c) /\
  in_box (painted c) (padding w, h) = true.
Proof.
  intros Hw. cbv zeta.
  destruct (canvas_of_size b src area rot cs d) as [-> ->].
  assert (Hw' : 0 <= inject_Z (unsigned_long 300 (width area))).
  { change 0 with (inject_Z 0). rewrite <- Zle_Qle.
    apply unsigned_long_nonneg. lia. }
  pose proof (fontSize_nonneg _ Hw') as Hf.
  rewrite painted_canvas_of. cbv zeta.
  set (w := inject_Z (unsigned_long 300 (width area))) in *.
  set (h := inject_Z (unsigned_long 150 (height area))) in *.
  split.
  - assert (Hrect :
              fontSize w + padding w * 2 == fontSize w * 2.5 /\
              (0 <= h - (fontSize w + padding w * 2) <->
               fontSize w * 2.5 <= h) /\
              (w <= 640 ->
               (0 <= h - (fontSize w + padding w * 2) <-> w <= 8 * h)) /\
              (640 <= w ->
               (0 <= h - (fontSize w + padding w * 2) <-> 80 <= h))).
    { unfold padding. split; [ring|]. split; [split; intros; lra|]. split.
      - intros H. unfold fontSize, Math_min.
        rewrite Q.min_l by lra. split; intros; lra.
      - intros H. unfold fontSize, Math_min.
        rewrite Q.min_r by lra. split; intros; lra. }
    destruct cs; cbn [app];
      repeat (apply Forall_cons;
              [cbn [shape]; first [exact I | exact Hrect]|]);
      apply Forall_nil.
  - assert (Hin :
              in_rect (padding w) (h - (fontSize w + padding w * 2))
                (textWidth b (mkFont true (fontSize w) "Arial")
                   (formatDate d) + padding w * 2)
                (fontSize w + padding w * 2) (padding w, h) = true).
    { unfold in_rect. cbn [fst snd].
      pose proof (padding_nonneg _ Hw') as Hp. fold w in Hp.
      rewrite !Bool.andb_true_iff, !Qle_bool_iff.
      repeat split.
      - apply Q.le_min_l.
      - apply Q.le_max_l.
      - eapply Qle_trans; [apply Q.le_min_l|]. lra.
      - eapply Qle_trans; [|apply Q.le_max_r]. lra. }
    destruct cs; cbn [app in_box existsb shape orb]; rewrite Hin;
      rewrite ?Bool.orb_true_r; reflexivity.
Qed.

End Versions.

Lemma label_stops_growing_at_640_witness :
  (fontSize (inject_Z (width Examples.square_crop)) == 100 / 20)%Q.
Proof.
  assert (Hw : (0 <= width Examples.square_crop)%Z) by (simpl; lia).
  pose proof (label_stops_growing_at_640 Examples.browser Examples.photo
                Examples.square_crop Examples.march_7 90 round Hw) as H.
  cbv zeta in H. destruct H as (_ & Hlow & _ & _).
  apply Hlow. vm_compute. discriminate.
Defined.

Lemma label_box_fits_under_the_top_edge_witness :
  (0 <= 100 - (fontSize 100 + padding 100 * 2))%Q.
Proof.
  assert (Hw : (0 <= width Examples.square_crop)%Z) by (simpl; lia).
  pose proof (label_box_fits_under_the_top_edge Examples.browser
                Examples.photo Examples.square_crop Examples.march_7 90
                rect Hw) as H.
  cbv zeta in H. destruct H as [H _].
  rewrite painted_canvas_of in H. cbv zeta in H. cbn [app] in H.
  apply Forall_inv_tail, Forall_inv in H. cbn [shape] in H.
  destruct H as (_ & _ & Hlow & _).
  apply Hlow; vm_compute; discriminate.
Defined.
